(** * btc_bot: technical-analysis routines over OHLCV candle series

    A shallow embedding of the analysis functions of [btc_bot.py]
    ([calculate_atr], [determine_trend], [find_key_levels],
    [find_round_levels], [check_patterns], [get_reserve_move]) together with
    the pandas / Python primitives they call, of the archive functions
    ([get_archive_path], [save_to_archive]) and of [main], followed by the
    properties proved about them.

    Numbers.  A Python float is either NaN or a finite value; finite values
    are exact rationals ([Q]), so rounding error and infinities are outside
    the model.  Comparisons involving NaN are false, arithmetic propagates
    NaN, and the pandas reductions skip NaN, as in the libraries. *)

From Stdlib Require Import Ascii String DecimalString.
From Stdlib Require Import ZArith QArith Qabs Qminmax Qround Qfield.
From Stdlib Require Import List Bool Arith Lia Lqa.
Import ListNotations.

Local Open Scope Q_scope.

(* ================================================================== *)
(** ** Python floats *)

Inductive float : Type :=
| NaN
| Num (q : Q).

(** [np.isnan] *)
Definition isnan (x : float) : bool :=
  match x with NaN => true | Num _ => false end.

Definition of_int (z : Z) : float := Num (inject_Z z).

Definition fsub (x y : float) : float :=
  match x, y with
  | Num a, Num b => Num (a - b)
  | _, _ => NaN
  end.

Definition fmul (x y : float) : float :=
  match x, y with
  | Num a, Num b => Num (a * b)
  | _, _ => NaN
  end.

(** [abs] *)
Definition fabs (x : float) : float :=
  match x with
  | Num a => Num (Qabs a)
  | NaN => NaN
  end.

Definition Qltb (a b : Q) : bool := negb (Qle_bool b a).

(** [x < y], [x > y] and [x == y]: false as soon as one side is NaN. *)
Definition flt (x y : float) : bool :=
  match x, y with
  | Num a, Num b => Qltb a b
  | _, _ => false
  end.

Definition fgt (x y : float) : bool := flt y x.

Definition fle (x y : float) : bool :=
  match x, y with
  | Num a, Num b => Qle_bool a b
  | _, _ => false
  end.

Definition fge (x y : float) : bool := fle y x.

Definition feq (x y : float) : bool :=
  match x, y with
  | Num a, Num b => Qeq_bool a b
  | _, _ => false
  end.

(** Equality of floats as values: the rationals are compared up to [Qeq]. *)
Definition float_equiv (x y : float) : Prop :=
  match x, y with
  | NaN, NaN => True
  | Num a, Num b => a == b
  | _, _ => False
  end.

(** The literals [0.1] and [0.75]. *)
Definition c0_1 : float := Num (1 # 10).
Definition c0_75 : float := Num (3 # 4).

(* ================================================================== *)
(** ** Exceptions and the two monads

    [result] is used by code that can only raise; [M] additionally threads
    the store of DataFrame objects and keeps the store when an exception is
    raised. *)

Inductive exn : Type :=
| IndexError
| KeyError
| ValueError
| ZeroDivisionError.

Inductive result (A : Type) : Type :=
| Ok (a : A)
| Raise (e : exn).

Arguments Ok {A} a.
Arguments Raise {A} e.

Class Monad (m : Type -> Type) : Type :=
  { ret : forall {A}, A -> m A;
    bind : forall {A B}, m A -> (A -> m B) -> m B }.

Declare Scope monad_scope.
Delimit Scope monad_scope with monad.

Notation "x <- c1 ;; c2" := (bind c1 (fun x => c2))
  (at level 61, c1 at next level, right associativity) : monad_scope.
Notation "c1 ;; c2" := (bind c1 (fun _ => c2))
  (at level 61, right associativity) : monad_scope.

Open Scope monad_scope.

#[export] Instance result_Monad : Monad result :=
  {| ret := fun A a => Ok a;
     bind := fun A B c k =>
       match c with
       | Ok a => k a
       | Raise e => Raise e
       end |}.

(** A monadic [for] loop over a list, threading an accumulator. *)
Fixpoint for_each {m : Type -> Type} {MM : Monad m} {A S : Type}
         (xs : list A) (body : S -> A -> m S) (s : S) : m S :=
  match xs with
  | [] => ret s
  | x :: xs' => s' <- body s x ;; for_each xs' body s'
  end.

(* ================================================================== *)
(** ** Python builtins *)

(** [s.iloc[i]] (and list indexing): negative positions count from the end,
    positions outside the sequence raise [IndexError]. *)
Definition iloc {A : Type} (s : list A) (i : Z) : result A :=
  let n := Z.of_nat (length s) in
  let j := if (i <? 0)%Z then (n + i)%Z else i in
  if ((j <? 0) || (n <=? j))%Z then Raise IndexError
  else match nth_error s (Z.to_nat j) with
       | Some a => Ok a
       | None => Raise IndexError
       end.

(** [range(lo, hi)] *)
Definition range (lo hi : Z) : list Z :=
  map (fun k => (lo + Z.of_nat k)%Z) (seq 0 (Z.to_nat (hi - lo))).

(** Rounding of a rational to the nearest integer, ties to the even one. *)
Definition round_half_even (x : Q) : Z :=
  let f := Qfloor x in
  match ((x - inject_Z f) ?= (1 # 2))%Q with
  | Lt => f
  | Gt => (f + 1)%Z
  | Eq => if Z.even f then f else (f + 1)%Z
  end.

(** [round(x)] on a float: an integer; NaN raises [ValueError]. *)
Definition py_round (x : float) : result Z :=
  match x with
  | Num q => Ok (round_half_even q)
  | NaN => Raise ValueError
  end.

(** [x / y] on floats; a zero divisor raises [ZeroDivisionError].  (On a
    numpy float the quotient is an infinity or NaN that [round] then
    refuses; the call fails either way.) *)
Definition fdiv (x y : float) : result float :=
  match x, y with
  | Num a, Num b => if Qeq_bool b 0 then Raise ZeroDivisionError else Ok (Num (a / b))
  | _, _ => Ok NaN
  end.

(* ================================================================== *)
(** ** pandas Series *)

Definition Series : Type := list float.

Fixpoint zip_with {A B C : Type} (f : A -> B -> C) (xs : list A) (ys : list B) : list C :=
  match xs, ys with
  | x :: xs', y :: ys' => f x y :: zip_with f xs' ys'
  | _, _ => []
  end.

(** [s.shift()]: every value moves one position down, the first becomes NaN. *)
Definition shift (s : Series) : Series :=
  match s with
  | [] => []
  | _ :: _ => NaN :: removelast s
  end.

(** [a - b] and [a.abs()], element by element. *)
Definition series_sub (a b : Series) : Series := zip_with fsub a b.
Definition series_abs (a : Series) : Series := map fabs a.

(** The non-NaN observations of a window. *)
Fixpoint observations (xs : list float) : list Q :=
  match xs with
  | [] => []
  | Num q :: xs' => q :: observations xs'
  | NaN :: xs' => observations xs'
  end.

Definition Qsum (qs : list Q) : Q := fold_right Qplus 0 qs.

Definition Qmean (q : Q) (qs : list Q) : Q :=
  Qsum (q :: qs) / inject_Z (Z.of_nat (length (q :: qs))).

Definition Qmaximum (q : Q) (qs : list Q) : Q := fold_left Qmax qs q.
Definition Qminimum (q : Q) (qs : list Q) : Q := fold_left Qmin qs q.

(** A reduction that skips NaN: NaN when the window holds no observation or
    fewer than [min_periods] of them. *)
Definition reduce_skipna (agg : Q -> list Q -> Q) (min_periods : nat) (xs : list float) : float :=
  match observations xs with
  | [] => NaN
  | q :: qs => if (length (q :: qs) <? min_periods)%nat then NaN else Num (agg q qs)
  end.

(** [df[[a, b, c]].max(axis=1)]: the row-wise maximum of three columns. *)
Fixpoint max_axis1 (a b c : Series) : Series :=
  match a, b, c with
  | x :: a', y :: b', z :: c' => reduce_skipna Qmaximum 0 [x; y; z] :: max_axis1 a' b' c'
  | _, _, _ => []
  end.

(** [s.rolling(window=w, min_periods=m)] *)
Record Rolling : Type := mkRolling
  { roll_data : Series;
    roll_window : nat;
    roll_min_periods : nat }.

Definition rolling (s : Series) (window min_periods : nat) : result Rolling :=
  if (window <? min_periods)%nat then Raise ValueError
  else Ok (mkRolling s window min_periods).

(** The trailing window of [w] positions that ends at position [i]. *)
Definition window_at (w i : nat) (s : Series) : list float :=
  skipn (i + 1 - w) (firstn (i + 1) s).

Definition rolling_apply (agg : Q -> list Q -> Q) (r : Rolling) : Series :=
  map (fun i => reduce_skipna agg (roll_min_periods r)
                  (window_at (roll_window r) i (roll_data r)))
      (seq 0 (length (roll_data r))).

Definition rolling_mean : Rolling -> Series := rolling_apply Qmean.
Definition rolling_max : Rolling -> Series := rolling_apply Qmaximum.
Definition rolling_min : Rolling -> Series := rolling_apply Qminimum.

(* ================================================================== *)
(** ** DataFrames

    A frame is its list of rows.  The six source columns are always present;
    a derived column is present in a row when its field is [Some]. *)

Record Bar : Type := mkBar
  { timestamp : Z;
    open : float;
    high : float;
    low : float;
    close : float;
    volume : float;
    high_low : option float;
    high_close : option float;
    low_close : option float;
    tr : option float;
    atr : option float }.

Definition DataFrame : Type := list Bar.

(** [df.empty] *)
Definition empty (df : DataFrame) : bool :=
  match df with
  | [] => true
  | _ :: _ => false
  end.

(** [df[c]] for a source column, and for a derived one ([KeyError] when the
    column is absent). *)
Definition col {A : Type} (c : Bar -> A) (df : DataFrame) : list A := map c df.

Fixpoint col_derived (c : Bar -> option float) (df : DataFrame) : result Series :=
  match df with
  | [] => Ok []
  | b :: df' =>
      match c b with
      | Some v => vs <- col_derived c df' ;; Ok (v :: vs)
      | None => Raise KeyError
      end
  end.

(** Writing one cell of a derived column. *)
Definition set_high_low (b : Bar) (v : float) : Bar :=
  mkBar (timestamp b) (open b) (high b) (low b) (close b) (volume b)
        (Some v) (high_close b) (low_close b) (tr b) (atr b).

Definition set_high_close (b : Bar) (v : float) : Bar :=
  mkBar (timestamp b) (open b) (high b) (low b) (close b) (volume b)
        (high_low b) (Some v) (low_close b) (tr b) (atr b).

Definition set_low_close (b : Bar) (v : float) : Bar :=
  mkBar (timestamp b) (open b) (high b) (low b) (close b) (volume b)
        (high_low b) (high_close b) (Some v) (tr b) (atr b).

Definition set_tr (b : Bar) (v : float) : Bar :=
  mkBar (timestamp b) (open b) (high b) (low b) (close b) (volume b)
        (high_low b) (high_close b) (low_close b) (Some v) (atr b).

Definition set_atr (b : Bar) (v : float) : Bar :=
  mkBar (timestamp b) (open b) (high b) (low b) (close b) (volume b)
        (high_low b) (high_close b) (low_close b) (tr b) (Some v).

(* ================================================================== *)
(** ** The object store

    DataFrame objects live in a store and are passed by reference, so that
    [df.copy()] and the column assignments that follow it are visible as
    what they are: writes to a fresh object. *)

Definition ref : Type := nat.
Definition heap : Type := list DataFrame.

Definition M (A : Type) : Type := heap -> result A * heap.

#[export] Instance M_Monad : Monad M :=
  {| ret := fun A a h => (Ok a, h);
     bind := fun A B c k h =>
       match c h with
       | (Ok a, h') => k a h'
       | (Raise e, h') => (Raise e, h')
       end |}.

Definition lift {A : Type} (c : result A) : M A := fun h => (c, h).

Fixpoint update {A : Type} (l : list A) (i : nat) (x : A) : list A :=
  match l, i with
  | [], _ => []
  | _ :: l', O => x :: l'
  | y :: l', S i' => y :: update l' i' x
  end.

Definition load (r : ref) : M DataFrame :=
  fun h => match nth_error h r with
           | Some d => (Ok d, h)
           | None => (Raise KeyError, h)   (* no such object: never reached *)
           end.

Definition store (r : ref) (d : DataFrame) : M unit :=
  fun h => (Ok tt, update h r d).

(** [df.copy()]: a new object holding the same rows. *)
Definition copy (r : ref) : M ref :=
  d <- load r ;;
  fun h => (Ok (length h), h ++ [d]).

(** [df[c]] and [df[c] = vals] through a reference. *)
Definition getitem {A : Type} (r : ref) (c : Bar -> A) : M (list A) :=
  d <- load r ;; ret (col c d).

Definition getitem_derived (r : ref) (c : Bar -> option float) : M Series :=
  d <- load r ;; lift (col_derived c d).

Definition setitem (r : ref) (set : Bar -> float -> Bar) (vals : Series) : M unit :=
  d <- load r ;; store r (zip_with set d vals).

(* ================================================================== *)
(** ** btc_bot.py *)

Definition ATR_PERIOD : nat := 14.
Definition ROUND_LEVELS : list Z := [1000; 500; 100]%Z.

Definition calculate_atr (df : ref) (period : nat) : M ref :=
  d <- load df ;;
  if empty d then ret df
  else
    df <- copy df ;;
    hi <- getitem df high ;;
    lo <- getitem df low ;;
    setitem df set_high_low (series_sub hi lo) ;;
    hi <- getitem df high ;;
    cl <- getitem df close ;;
    setitem df set_high_close (series_abs (series_sub hi (shift cl))) ;;
    lo <- getitem df low ;;
    cl <- getitem df close ;;
    setitem df set_low_close (series_abs (series_sub lo (shift cl))) ;;
    hl <- getitem_derived df high_low ;;
    hc <- getitem_derived df high_close ;;
    lc <- getitem_derived df low_close ;;
    setitem df set_tr (max_axis1 hl hc lc) ;;
    trs <- getitem_derived df tr ;;
    roll <- lift (rolling trs period 1) ;;
    setitem df set_atr (rolling_mean roll) ;;
    ret df.

(** The remaining functions only read their frames, so they take the rows
    themselves rather than a reference. *)

Inductive Trend : Type := long | short.

Definition determine_trend (df_1h df_1d : DataFrame)
  : result (option Trend * option Trend) :=
  if empty df_1h || empty df_1d then Ok (None, None)
  else
    current_price <- iloc (col close df_1h) (-1) ;;
    last_daily_close <- iloc (col close df_1d) (-1) ;;
    let local_trend := if fgt current_price last_daily_close then long else short in
    global_trend <-
      (if (6 <=? length df_1d)%nat then
         a <- iloc (col close df_1d) (-1) ;;
         b <- iloc (col close df_1d) (-5) ;;
         Ok (Some (if fgt a b then long else short))
       else Ok None) ;;
    Ok (Some local_trend, global_trend).

Inductive LevelType : Type := resistance | support.

Definition LevelType_eqb (a b : LevelType) : bool :=
  match a, b with
  | resistance, resistance | support, support => true
  | _, _ => false
  end.

(** A key level [(kind, price, timestamp)]. *)
Definition KeyLevel : Type := (LevelType * float * Z)%type.

Definition find_key_levels (df : DataFrame) : result (list KeyLevel) :=
  if empty df then Ok []
  else
    roll_h <- rolling (col high df) 20 1 ;;
    let highs := rolling_max roll_h in
    roll_l <- rolling (col low df) 20 1 ;;
    let lows := rolling_min roll_l in
    for_each (range 1 (Z.of_nat (length df) - 1))
      (fun levels i =>
         h <- iloc (col high df) i ;;
         hmax <- iloc highs i ;;
         levels <-
           (if feq h hmax then
              t <- iloc (col timestamp df) i ;;
              Ok (levels ++ [(resistance, h, t)])
            else Ok levels) ;;
         l <- iloc (col low df) i ;;
         lmin <- iloc lows i ;;
         if feq l lmin then
           t <- iloc (col timestamp df) i ;;
           Ok (levels ++ [(support, l, t)])
         else Ok levels)
      [].

(** [price] is [None] for Python's [None]; the result is the rounded level
    or [None]. *)
Definition find_round_levels (price : option float) (round_levels : list Z)
  : result (option Z) :=
  match price with
  | None => Ok None
  | Some price =>
      if isnan price then Ok None
      else
        (fix loop (levels : list Z) : result (option Z) :=
           match levels with
           | [] => Ok None
           | level :: levels' =>
               q <- fdiv price (of_int level) ;;
               n <- py_round q ;;
               let rounded := (n * level)%Z in
               if flt (fabs (fsub price (of_int rounded))) (fmul (of_int level) c0_1)
               then Ok (Some rounded)
               else loop levels'
           end) round_levels
  end.

Inductive Pattern : Type := false_breakout | breakout | bounce.

(** A signal [(pattern, level_price, timestamp)]. *)
Definition Signal : Type := (Pattern * float * Z)%type.

(** The body of the loop of [check_patterns] for one level. *)
Definition check_level (prev_bar last_bar : Bar) (signals : list Signal) (level : KeyLevel)
  : list Signal :=
  let '(level_type, level_price, _) := level in
  let signals :=
    if (fgt (high prev_bar) level_price && flt (close last_bar) level_price
          && LevelType_eqb level_type resistance)
       || (flt (low prev_bar) level_price && fgt (close last_bar) level_price
             && LevelType_eqb level_type support)
    then signals ++ [(false_breakout, level_price, timestamp last_bar)]
    else signals in
  let signals :=
    if fgt (close last_bar) level_price && flt (close prev_bar) level_price
         && LevelType_eqb level_type resistance
    then signals ++ [(breakout, level_price, timestamp last_bar)]
    else signals in
  let atr_val := match atr last_bar with
                 | Some a => a
                 | None => of_int 0
                 end in
  if LevelType_eqb level_type support && negb (isnan atr_val)
       && flt (fabs (fsub (low last_bar) level_price)) (fmul atr_val c0_1)
       && fgt (close last_bar) level_price
  then signals ++ [(bounce, level_price, timestamp last_bar)]
  else signals.

Definition check_patterns (df : DataFrame) (levels : list KeyLevel)
  : result (list Signal) :=
  if (length df <? 2)%nat then Ok []
  else
    last_bar <- iloc df (-1) ;;
    prev_bar <- iloc df (-2) ;;
    Ok (fold_left (check_level prev_bar last_bar) levels []).

(** The three messages of [get_reserve_move]:
    - [NoData]: "Нет данных для оценки запаса хода";
    - [Exhausted]: "Запас хода исчерпан (>75% ATR), предпочтение
      контртрендовым сделкам";
    - [Normal]: "Запас хода нормальный". *)
Inductive ReserveStatus : Type := NoData | Exhausted | Normal.

Definition get_reserve_move (df_1h df_1d : DataFrame) (atr : option float)
  : result ReserveStatus :=
  if empty df_1h || empty df_1d
     || match atr with None => true | Some a => isnan a end
  then Ok NoData
  else
    match atr with
    | None => Ok NoData
    | Some atr =>
        a <- iloc (col close df_1h) (-1) ;;
        b <- iloc (col close df_1d) (-1) ;;
        let price_move := fabs (fsub a b) in
        if fgt price_move (fmul atr c0_75) then Ok Exhausted else Ok Normal
    end.

(* ================================================================== *)
(** ** The archive: get_archive_path and save_to_archive

    Text is a list of characters.  The datetime library is an interface:
    [strptime] parses with the format '%Y-%m-%d %H:%M:%S' (ValueError on a
    malformed string), the three [strftime] fields are '%Y', '%m' and '%d',
    and [isocalendar_week] is [isocalendar()[1]].  What is assumed of the
    formatted fields is that they are not empty and hold no '/'. *)

Definition text : Type := list ascii.

Definition str (s : string) : text := list_ascii_of_string s.

Definition sep : ascii := "/"%char.

(** A non-empty piece of text without path separator. *)
Definition plain (s : text) : Prop := s <> [] /\ Forall (fun c => c <> sep) s.

Class Datetime : Type :=
  { datetime : Type;
    strptime : text -> result datetime;
    strftime_Y : datetime -> text;
    strftime_m : datetime -> text;
    strftime_d : datetime -> text;
    isocalendar_week : datetime -> nat;
    strftime_Y_plain : forall dt, plain (strftime_Y dt);
    strftime_m_plain : forall dt, plain (strftime_m dt);
    strftime_d_plain : forall dt, plain (strftime_d dt) }.

(** [f"{n:02d}"]: decimal digits, padded with a zero to two characters. *)
Definition format_02d (n : nat) : text :=
  let digits := str (NilZero.string_of_uint (Nat.to_uint n)) in
  if (n <? 10)%nat then "0"%char :: digits else digits.

(** [os.path.join] (POSIX): a component that starts with '/' restarts the
    path; otherwise it is appended, after a '/' unless the path so far is
    empty or already ends with one. *)
Definition startswith_sep (s : text) : bool :=
  match s with
  | c :: _ => Ascii.eqb c sep
  | [] => false
  end.

Definition endswith_sep (s : text) : bool :=
  match rev s with
  | c :: _ => Ascii.eqb c sep
  | [] => false
  end.

Definition join2 (path b : text) : text :=
  if startswith_sep b then b
  else if match path with [] => true | _ :: _ => false end || endswith_sep path
       then path ++ b
       else path ++ sep :: b.

Definition path_join (a : text) (ps : list text) : text := fold_left join2 ps a.

Definition ARCHIVE_ROOT : text := str "archive".

Definition get_archive_path `{Datetime} (date_str : text) : result text :=
  dt <- strptime date_str ;;
  let year := strftime_Y dt in
  let month := strftime_m dt in
  let week_num := isocalendar_week dt in
  let day := strftime_d dt in
  Ok (path_join ARCHIVE_ROOT [year; month; str "week_" ++ format_02d week_num; day]).

(** Files hold lines: a header line or one data row of the table written.
    Directories are not modelled ([os.makedirs] has no other effect). *)
Inductive RowData : Type :=
| LevelRow (l : KeyLevel)
| SignalRow (s : Signal)
| BarRow (b : Bar).

Inductive Line : Type :=
| Header
| Row (r : RowData).

Definition filesystem : Type := text -> option (list Line).

Definition text_eqb (a b : text) : bool :=
  if list_eq_dec ascii_dec a b then true else false.

Definition fs_write (fs : filesystem) (path : text) (content : list Line) : filesystem :=
  fun p => if text_eqb p path then Some content else fs p.

(** [os.path.exists] *)
Definition path_exists (fs : filesystem) (path : text) : bool :=
  match fs path with
  | Some _ => true
  | None => false
  end.

(** [df.to_csv(path, mode=..., header=..., index=False)]: mode 'w'
    replaces the content, mode 'a' extends it. *)
Definition to_csv (rows : list RowData) (path : text) (append_mode header : bool)
           (fs : filesystem) : filesystem :=
  let old := if append_mode then match fs path with Some c => c | None => [] end else [] in
  fs_write fs path (old ++ (if header then [Header] else []) ++ map Row rows).

Definition FSM (A : Type) : Type := filesystem -> result A * filesystem.

#[export] Instance FSM_Monad : Monad FSM :=
  {| ret := fun A a fs => (Ok a, fs);
     bind := fun A B c k fs =>
       match c fs with
       | (Ok a, fs') => k a fs'
       | (Raise e, fs') => (Raise e, fs')
       end |}.

Definition lift_fs {A : Type} (c : result A) : FSM A := fun fs => (c, fs).

Definition save_to_archive `{Datetime} (df : list RowData) (base_filename date_str : text)
           (header : bool) : FSM text :=
  archive_dir <- lift_fs (get_archive_path date_str) ;;
  dt <- lift_fs (strptime date_str) ;;
  let day := strftime_d dt in
  let file_path := path_join archive_dir [day ++ str "_" ++ base_filename ++ str ".csv"] in
  fun fs =>
    let mode_a := path_exists fs file_path in
    (Ok file_path, to_csv df file_path mode_a (header && negb mode_a) fs).

(** The file that save_to_archive writes for a date and a base name:
    archive/YYYY/MM/week_WW/DD/DD_<base>.csv. *)
Definition archive_dir_of `{Datetime} (dt : datetime) : text :=
  ARCHIVE_ROOT ++ sep :: strftime_Y dt ++ sep :: strftime_m dt
    ++ sep :: (str "week_" ++ format_02d (isocalendar_week dt))
    ++ sep :: strftime_d dt.

Definition archive_file_of `{Datetime} (dt : datetime) (base_filename : text) : text :=
  archive_dir_of dt ++ sep :: strftime_d dt ++ str "_" ++ base_filename ++ str ".csv".

(** Successive calls of save_to_archive for the same file, one per batch of
    rows, as a loop does them. *)
Definition save_batches `{Datetime} (batches : list (list RowData))
           (base_filename date_str : text) : FSM unit :=
  for_each batches
    (fun _ rows => save_to_archive rows base_filename date_str true ;; ret tt) tt.

(** A datetime library cut down to the single instant
    2024-01-05 10:00:00 (a Friday of ISO week 1), to run the archive
    functions on. *)
#[export] Program Instance Datetime_20240105 : Datetime :=
  {| datetime := unit;
     strptime := fun s =>
       if text_eqb s (str "2024-01-05 10:00:00") then Ok tt else Raise ValueError;
     strftime_Y := fun _ => str "2024";
     strftime_m := fun _ => str "01";
     strftime_d := fun _ => str "05";
     isocalendar_week := fun _ => 1%nat |}.
Next Obligation. split; [discriminate | repeat constructor; discriminate]. Qed.
Next Obligation. split; [discriminate | repeat constructor; discriminate]. Qed.
Next Obligation. split; [discriminate | repeat constructor; discriminate]. Qed.

(* ================================================================== *)
(** ** main

    One run of the script.  What lies outside the program is given: the
    current time already formatted, and [fetch_ohlcv] (the HTTP request and
    the parsing of its answer) as what it returns or raises for an
    instrument and a bar size.  A run changes the object store, the files
    and the log. *)

Class Collaborators : Type :=
  { now_date_str : text;
    fetch_ohlcv : text -> text -> result DataFrame }.

Inductive LogRecord : Type :=
| InfoStart (date_str : text)
| WarnEmpty
| InfoTrends (local_trend global_trend : option Trend)
| InfoKeyLevels (last_five : option (list KeyLevel))
| InfoRoundLevel (round_level : option Z)
| InfoPatterns (patterns : list Signal)
| InfoReserve (status : ReserveStatus)
| LogException (e : exn).

Record World : Type := mkWorld
  { w_heap : heap;
    w_fs : filesystem;
    w_log : list LogRecord }.

Definition W (A : Type) : Type := World -> result A * World.

#[export] Instance W_Monad : Monad W :=
  {| ret := fun A a w => (Ok a, w);
     bind := fun A B c k w =>
       match c w with
       | (Ok a, w') => k a w'
       | (Raise e, w') => (Raise e, w')
       end |}.

Definition in_heap {A : Type} (c : M A) : W A :=
  fun w => let (r, h') := c (w_heap w) in (r, mkWorld h' (w_fs w) (w_log w)).

Definition in_fs {A : Type} (c : FSM A) : W A :=
  fun w => let (r, fs') := c (w_fs w) in (r, mkWorld (w_heap w) fs' (w_log w)).

Definition pure {A : Type} (c : result A) : W A := fun w => (c, w).

Definition logging (r : LogRecord) : W unit :=
  fun w => (Ok tt, mkWorld (w_heap w) (w_fs w) (w_log w ++ [r])).

(** A new DataFrame object. *)
Definition alloc (d : DataFrame) : M ref := fun h => (Ok (length h), h ++ [d]).

Definition SYMBOL_FUTURES : text := str "BTC-USD-SWAP".
Definition TIMEFRAME_1h : text := str "1H".
Definition TIMEFRAME_1d : text := str "1D".
Definition BASE_FILE_levels : text := str "btc_levels_data".
Definition BASE_FILE_patterns : text := str "btc_patterns_data".
Definition BASE_FILE_ohlcv_1h : text := str "btc_ohlcv_1h".
Definition BASE_FILE_ohlcv_1d : text := str "btc_ohlcv_1d".

(** [l[-5:]] *)
Definition last_five {A : Type} (l : list A) : list A := skipn (length l - 5) l.

(** [df['atr'].iloc[-1] if 'atr' in df.columns else np.nan] *)
Definition last_atr_or_nan (d : DataFrame) : result float :=
  match col_derived atr d with
  | Ok s => iloc s (-1)
  | Raise _ => Ok NaN
  end.

(** The body of the [try] block. *)
Definition main_body `{Datetime} `{Collaborators} : W unit :=
  let date_str := now_date_str in
  logging (InfoStart date_str) ;;
  d <- pure (fetch_ohlcv SYMBOL_FUTURES TIMEFRAME_1h) ;;
  df_1h <- in_heap (alloc d) ;;
  d <- pure (fetch_ohlcv SYMBOL_FUTURES TIMEFRAME_1d) ;;
  df_1d <- in_heap (alloc d) ;;
  d_1h <- in_heap (load df_1h) ;;
  d_1d <- in_heap (load df_1d) ;;
  if empty d_1h || empty d_1d then logging WarnEmpty
  else
    df_1h <- in_heap (calculate_atr df_1h ATR_PERIOD) ;;
    df_1d <- in_heap (calculate_atr df_1d ATR_PERIOD) ;;
    d_1h <- in_heap (load df_1h) ;;
    d_1d <- in_heap (load df_1d) ;;
    trends <- pure (determine_trend d_1h d_1d) ;;
    key_levels <- pure (find_key_levels d_1h) ;;
    price <- pure (iloc (col close d_1h) (-1)) ;;
    round_level <- pure (find_round_levels (Some price) ROUND_LEVELS) ;;
    patterns <- pure (check_patterns d_1h key_levels) ;;
    atr_daily <- pure (last_atr_or_nan d_1d) ;;
    reserve_status <- pure (get_reserve_move d_1h d_1d (Some atr_daily)) ;;
    (match key_levels with
     | [] => ret tt
     | _ :: _ =>
         in_fs (save_to_archive (map LevelRow key_levels) BASE_FILE_levels date_str true) ;;
         ret tt
     end) ;;
    (match patterns with
     | [] => ret tt
     | _ :: _ =>
         in_fs (save_to_archive (map SignalRow patterns) BASE_FILE_patterns date_str true) ;;
         ret tt
     end) ;;
    in_fs (save_to_archive (map BarRow d_1h) BASE_FILE_ohlcv_1h date_str true) ;;
    in_fs (save_to_archive (map BarRow d_1d) BASE_FILE_ohlcv_1d date_str true) ;;
    logging (InfoTrends (fst trends) (snd trends)) ;;
    logging (InfoKeyLevels match key_levels with
                           | [] => None
                           | _ :: _ => Some (last_five key_levels)
                           end) ;;
    logging (InfoRoundLevel round_level) ;;
    logging (InfoPatterns patterns) ;;
    logging (InfoReserve reserve_status).

(** [main]: the [try] block, any exception being logged. *)
Definition main `{Datetime} `{Collaborators} (w : World) : World :=
  match main_body w with
  | (Ok _, w') => w'
  | (Raise e, w') => mkWorld (w_heap w') (w_fs w') (w_log w' ++ [LogException e])
  end.

(** What a file holds once rows are saved to it with a header asked for. *)
Definition saved (fs : filesystem) (path : text) (rows : list RowData) : list Line :=
  match fs path with
  | None => Header :: map Row rows
  | Some old => old ++ map Row rows
  end.

(* ================================================================== *)
(** ** Definitions that follow the specification's words

    These are written from the specification, over a series given by its
    columns as functions of the bar index, and are compared below with what
    the code computes. *)

(** True range of bar [i] (section 4.1). *)
Definition spec_true_range (H L C : nat -> Q) (i : nat) : Q :=
  match i with
  | O => H 0%nat - L 0%nat
  | S j => Qmax (Qmax (H i - L i) (Qabs (H i - C j))) (Qabs (L i - C j))
  end.

(** ATR of bar [i]: the mean of the true ranges over the trailing
    [min N (i+1)] indices. *)
Definition spec_atr (N : nat) (TR : nat -> Q) (i : nat) : Q :=
  let w := Nat.min N (i + 1) in
  Qsum (map TR (seq (i + 1 - w) w)) / inject_Z (Z.of_nat w).

(** Rolling extreme over the trailing [W] bars ending at [i] (section 4.3),
    the window expanding while fewer than [W] bars exist. *)
Definition spec_rolling (op : Q -> Q -> Q) (W : nat) (X : nat -> Q) (i : nat) : Q :=
  let w := Nat.min W (i + 1) in
  fold_right op (X i) (map X (seq (i + 1 - w) w)).

Definition spec_levels_at (W : nat) (T : nat -> Z) (H L : nat -> Q) (i : nat)
  : list KeyLevel :=
  (if Qeq_bool (H i) (spec_rolling Qmax W H i) then [(resistance, Num (H i), T i)] else [])
    ++ (if Qeq_bool (L i) (spec_rolling Qmin W L i) then [(support, Num (L i), T i)] else []).

(** Key levels of a series of [len] bars: interior indices only, in order. *)
Definition spec_find_key_levels (W : nat) (T : nat -> Z) (H L : nat -> Q) (len : nat)
  : list KeyLevel :=
  flat_map (spec_levels_at W T H L) (seq 1 (len - 2)).



(** Global trend of the daily closes (section 4.2): at least six bars, the
    last close against the close five bars before it. *)
Definition spec_global_trend (closes : list Q) : option Trend :=
  let n := length closes in
  if (6 <=? n)%nat then
    Some (if Qltb (nth (n - 1 - 5) closes 0) (nth (n - 1) closes 0) then long else short)
  else None.

(** The columns that calculate_atr derives from a frame [d], as values, and
    the frame after each of its five column assignments. *)
Definition high_low_series (d : DataFrame) : Series :=
  series_sub (col high d) (col low d).

Definition high_close_series (d : DataFrame) : Series :=
  series_abs (series_sub (col high d) (shift (col close d))).

Definition low_close_series (d : DataFrame) : Series :=
  series_abs (series_sub (col low d) (shift (col close d))).

Definition true_ranges (d : DataFrame) : Series :=
  max_axis1 (high_low_series d) (high_close_series d) (low_close_series d).

Definition frame_hl (d : DataFrame) : DataFrame :=
  zip_with set_high_low d (high_low_series d).

Definition frame_hc (d : DataFrame) : DataFrame :=
  zip_with set_high_close (frame_hl d) (high_close_series d).

Definition frame_lc (d : DataFrame) : DataFrame :=
  zip_with set_low_close (frame_hc d) (low_close_series d).

Definition tr_frame (d : DataFrame) : DataFrame :=
  zip_with set_tr (frame_lc d) (true_ranges d).

Definition atr_frame (d : DataFrame) (period : nat) : DataFrame :=
  zip_with set_atr (tr_frame d) (rolling_mean (mkRolling (true_ranges d) period 1)).

(** The six source fields of a bar. *)
Definition source_fields (b : Bar) : Z * float * float * float * float * float :=
  (timestamp b, open b, high b, low b, close b, volume b).

(** [m] is an extreme value of the list [l] for the order [R]: it bounds
    every element and is (equal to) one of them. *)
Definition extreme_of (R : Q -> Q -> Prop) (l : list Q) (m : Q) : Prop :=
  (forall x, In x l -> R x m) /\ exists x, In x l /\ m == x.

(** Strict order on floats as a proposition: both sides are numbers. *)
Definition float_lt (x y : float) : Prop :=
  match x, y with
  | Num a, Num b => a < b
  | _, _ => False
  end.

(** A candle as fetched: the six source fields, no derived column. *)
Definition candle (t : Z) (o h l c v : Q) : Bar :=
  mkBar t (Num o) (Num h) (Num l) (Num c) (Num v) None None None None None.

Definition pattern_of (s : Signal) : Pattern := fst (fst s).


(** The levels that the loop of find_key_levels appends at position [i],
    read off the frame and the two rolling series. *)
Definition levels_at (d : DataFrame) (i : nat) : list KeyLevel :=
  match nth_error d i,
        nth_error (rolling_max (mkRolling (col high d) 20 1)) i,
        nth_error (rolling_min (mkRolling (col low d) 20 1)) i with
  | Some b, Some hmax, Some lmin =>
      (if feq (high b) hmax then [(resistance, high b, timestamp b)] else [])
        ++ (if feq (low b) lmin then [(support, low b, timestamp b)] else [])
  | _, _, _ => []
  end.

(** A bar with its five derived cells written. *)
Definition with_derived (b : Bar) (v1 v2 v3 v4 v5 : float) : Bar :=
  set_atr (set_tr (set_low_close (set_high_close (set_high_low b v1) v2) v3) v4) v5.

(** Two sets of collaborators to run main on: an exchange that answers
    with four hourly and two daily candles at 2024-01-05 10:00:00, and one
    whose requests fail. *)
Definition example_hourly : DataFrame :=
  [candle 1 10 12 9 11 1; candle 2 11 15 10 14 1; candle 3 14 14 8 9 1;
   candle 4 9 16 9 15 1].

Definition example_daily : DataFrame :=
  [candle 1 8 12 7 10 5; candle 2 10 16 8 15 6].

Definition Collaborators_example : Collaborators :=
  {| now_date_str := str "2024-01-05 10:00:00";
     fetch_ohlcv := fun _ bar =>
       if text_eqb bar TIMEFRAME_1h then Ok example_hourly else Ok example_daily |}.


Definition World_empty : World := mkWorld [] (fun _ => None) [].

(* ================================================================== *)
(** * Properties *)

(** ** Floats and rationals *)

Lemma Qltb_lt (a b : Q) : Qltb a b = true <-> a < b.
Proof.
  unfold Qltb. rewrite negb_true_iff.
  split; intro H.
  - apply Qnot_le_lt. intro Hle. apply Qle_bool_iff in Hle. congruence.
  - destruct (Qle_bool b a) eqn:E; [|reflexivity].
    apply Qle_bool_iff in E. exfalso. apply (Qlt_not_le _ _ H E).
Qed.

Lemma Qltb_ge (a b : Q) : Qltb a b = false <-> b <= a.
Proof.
  unfold Qltb. rewrite negb_false_iff. apply Qle_bool_iff.
Qed.

Lemma flt_Num (a b : Q) : flt (Num a) (Num b) = true <-> a < b.
Proof. apply Qltb_lt. Qed.

Lemma fgt_Num (a b : Q) : fgt (Num a) (Num b) = true <-> b < a.
Proof. apply Qltb_lt. Qed.

(** ** Indexing *)

Lemma iloc_nat {A : Type} (s : list A) (i : nat) (a : A) :
  nth_error s i = Some a -> iloc s (Z.of_nat i) = Ok a.
Proof.
  intro H. unfold iloc. cbv zeta.
  assert (Hi : (i < length s)%nat) by (apply nth_error_Some; congruence).
  assert (E1 : (Z.of_nat i <? 0)%Z = false) by (apply Z.ltb_ge; lia).
  assert (E2 : (Z.of_nat (length s) <=? Z.of_nat i)%Z = false) by (apply Z.leb_gt; lia).
  rewrite E1. cbv iota. rewrite E1, E2. simpl.
  rewrite Nat2Z.id, H. reflexivity.
Qed.

Lemma iloc_from_end {A : Type} (s : list A) (k : nat) (a : A) :
  (0 < k <= length s)%nat ->
  nth_error s (length s - k) = Some a ->
  iloc s (- Z.of_nat k) = Ok a.
Proof.
  intros Hk H. unfold iloc. cbv zeta.
  assert (E1 : (- Z.of_nat k <? 0)%Z = true) by (apply Z.ltb_lt; lia).
  assert (E2 : (Z.of_nat (length s) + - Z.of_nat k <? 0)%Z = false)
    by (apply Z.ltb_ge; lia).
  assert (E3 : (Z.of_nat (length s) <=? Z.of_nat (length s) + - Z.of_nat k)%Z = false)
    by (apply Z.leb_gt; lia).
  rewrite E1. cbv iota. rewrite E2, E3. simpl.
  replace (Z.to_nat (Z.of_nat (length s) + - Z.of_nat k)) with (length s - k)%nat by lia.
  rewrite H. reflexivity.
Qed.

Lemma iloc_last {A : Type} (s : list A) (a : A) :
  iloc (s ++ [a]) (-1) = Ok a.
Proof.
  apply (iloc_from_end (s ++ [a]) 1%nat).
  - rewrite length_app. simpl. lia.
  - rewrite length_app. simpl.
    replace (length s + 1 - 1)%nat with (length s) by lia.
    rewrite nth_error_app2 by lia. rewrite Nat.sub_diag. reflexivity.
Qed.

(* ================================================================== *)
(** ** determine_trend *)

(** What the code computes for the global trend: with at least six daily
    bars, the last close is compared with the fifth close from the end,
    position [n - 5], which lies four bars before the last one. *)
Lemma determine_trend_global_code (df_1h df_1d : DataFrame) (a b : float) :
  df_1h <> [] ->
  (6 <= length df_1d)%nat ->
  nth_error (col close df_1d) (length df_1d - 1) = Some a ->
  nth_error (col close df_1d) (length df_1d - 5) = Some b ->
  exists local_trend,
    determine_trend df_1h df_1d
    = Ok (Some local_trend, Some (if fgt a b then long else short)).
Proof.
  intros Hh Hlen Ha Hb.
  unfold determine_trend.
  destruct df_1h as [|x xs]; [congruence|].
  destruct df_1d as [|y ys]; [simpl in Hlen; lia|].
  cbn [empty orb].
  assert (Hn : length (col close (y :: ys)) = length (y :: ys))
    by (unfold col; apply length_map).
  assert (Ia : iloc (col close (y :: ys)) (-1) = Ok a).
  { apply (iloc_from_end (col close (y :: ys)) 1%nat); rewrite Hn; [lia|exact Ha]. }
  assert (Ib : iloc (col close (y :: ys)) (-5) = Ok b).
  { apply (iloc_from_end (col close (y :: ys)) 5%nat); rewrite Hn; [lia|exact Hb]. }
  destruct (exists_last (l := col close (x :: xs))) as [cs [c Hc]];
    [discriminate|].
  eexists.
  rewrite Hc, iloc_last. cbn [bind result_Monad].
  rewrite Ia.
  replace (6 <=? length (y :: ys))%nat with true by (symmetry; apply Nat.leb_le; lia).
  rewrite Ib.
  reflexivity.
Qed.

(** With fewer than six daily bars (and hourly bars present) there is no
    global trend. *)
Lemma determine_trend_global_none (df_1h df_1d : DataFrame) :
  df_1h <> [] ->
  (length df_1d < 6)%nat ->
  exists local_trend, determine_trend df_1h df_1d = Ok (local_trend, None).
Proof.
  intros Hh Hlen.
  unfold determine_trend.
  destruct df_1h as [|x xs]; [congruence|].
  destruct df_1d as [|y ys]; [eexists; reflexivity|].
  cbn [empty orb].
  destruct (exists_last (l := col close (x :: xs))) as [cs [c Hc]]; [discriminate|].
  destruct (exists_last (l := col close (y :: ys))) as [ds [d Hd]]; [discriminate|].
  eexists.
  rewrite Hc, Hd, !iloc_last. cbn [bind result_Monad].
  replace (6 <=? length (y :: ys))%nat with false by (symmetry; apply Nat.leb_gt; lia).
  reflexivity.
Qed.

(** C1 (the code departs from the claim).  On the daily closes
    1, 10, 5, 5, 5, 5 the last close (5) is strictly greater than the close
    five bars prior (1), which is a long global trend by the specification;
    the code compares it with the close four bars prior (10) and returns
    short. *)
Theorem determine_trend_global_off_by_one :
  let closes := [1; 10; 5; 5; 5; 5] in
  let df_1d := map (fun c => candle 0 c c c c 1) closes in
  let df_1h := [candle 0 5 5 5 5 1] in
  determine_trend df_1h df_1d = Ok (Some short, Some short)
  /\ spec_global_trend closes = Some long.
Proof.
  split; reflexivity.
Qed.

(* ================================================================== *)
(** ** check_patterns *)

Lemma check_patterns_last_two (rest : DataFrame) (prev_bar last_bar : Bar)
      (levels : list KeyLevel) :
  check_patterns (rest ++ [prev_bar; last_bar]) levels
  = Ok (fold_left (check_level prev_bar last_bar) levels []).
Proof.
  unfold check_patterns.
  assert (Hlen : length (rest ++ [prev_bar; last_bar]) = (length rest + 2)%nat)
    by (rewrite length_app; reflexivity).
  replace (length (rest ++ [prev_bar; last_bar]) <? 2)%nat with false
    by (symmetry; apply Nat.ltb_ge; lia).
  assert (I1 : iloc (rest ++ [prev_bar; last_bar]) (-1) = Ok last_bar).
  { apply (iloc_from_end _ 1%nat); rewrite Hlen; [lia|].
    rewrite nth_error_app2 by lia.
    replace (length rest + 2 - 1 - length rest)%nat with 1%nat by lia. reflexivity. }
  assert (I2 : iloc (rest ++ [prev_bar; last_bar]) (-2) = Ok prev_bar).
  { apply (iloc_from_end _ 2%nat); rewrite Hlen; [lia|].
    rewrite nth_error_app2 by lia.
    replace (length rest + 2 - 2 - length rest)%nat with 0%nat by lia. reflexivity. }
  rewrite I1. cbn [bind result_Monad]. rewrite I2. reflexivity.
Qed.

Lemma check_patterns_short (df : DataFrame) (levels : list KeyLevel) :
  (length df < 2)%nat -> check_patterns df levels = Ok [].
Proof.
  intro H. unfold check_patterns.
  replace (length df <? 2)%nat with true by (symmetry; apply Nat.ltb_lt; lia).
  reflexivity.
Qed.

(** Each level appends its signals to those found so far. *)
Lemma check_level_app (prev_bar last_bar : Bar) (signals : list Signal) (level : KeyLevel) :
  check_level prev_bar last_bar signals level
  = signals ++ check_level prev_bar last_bar [] level.
Proof.
  destruct level as [[level_type level_price] t].
  unfold check_level.
  repeat match goal with
         | |- context [if ?c then _ else _] => destruct c
         end;
    cbn [app]; rewrite <- ?app_assoc, ?app_nil_r; reflexivity.
Qed.

Lemma fold_check_level (prev_bar last_bar : Bar) (levels : list KeyLevel)
      (signals : list Signal) :
  fold_left (check_level prev_bar last_bar) levels signals
  = signals ++ flat_map (check_level prev_bar last_bar []) levels.
Proof.
  revert signals.
  induction levels as [|level levels IH]; intro signals; simpl.
  - now rewrite app_nil_r.
  - rewrite IH, check_level_app, app_assoc. reflexivity.
Qed.

(** C4.  On a series of exactly two bars whose previous high is 110 and
    whose last close is 100, with the single key level (resistance, 105),
    check_patterns emits exactly one signal: a false_breakout at the level
    price with the last bar's timestamp. *)
Theorem check_patterns_false_breakout_example
        (prev_bar last_bar : Bar) (level_price : float) (t : Z) :
  float_equiv (high prev_bar) (Num 110) ->
  float_equiv (close last_bar) (Num 100) ->
  float_equiv level_price (Num 105) ->
  check_patterns [prev_bar; last_bar] [(resistance, level_price, t)]
  = Ok [(false_breakout, level_price, timestamp last_bar)].
Proof.
  intros Hh Hc Hl.
  rewrite (check_patterns_last_two [] prev_bar last_bar).
  destruct (high prev_bar) as [|h] eqn:Eh; [contradiction|].
  destruct (close last_bar) as [|c] eqn:Ec; [contradiction|].
  destruct level_price as [|p]; [contradiction|].
  simpl in Hh, Hc, Hl.
  cbn [fold_left]. unfold check_level. rewrite Eh, Ec.
  assert (E1 : fgt (Num h) (Num p) = true) by (apply fgt_Num; lra).
  assert (E2 : flt (Num c) (Num p) = true) by (apply flt_Num; lra).
  assert (E3 : fgt (Num c) (Num p) = false).
  { unfold fgt. simpl. apply Qltb_ge. lra. }
  rewrite E1, E2, E3. reflexivity.
Qed.

Lemma check_patterns_false_breakout_example_witness :
  check_patterns [candle 1 108 110 104 107 1; candle 2 107 108 99 100 1]
                 [(resistance, Num 105, 1%Z)]
  = Ok [(false_breakout, Num 105, 2%Z)].
Proof.
  apply (check_patterns_false_breakout_example
           (candle 1 108 110 104 107 1) (candle 2 107 108 99 100 1) (Num 105) 1%Z);
    simpl; reflexivity.
Defined.





(* ================================================================== *)
(** ** get_reserve_move *)

Lemma get_reserve_move_defined (h1 d1 : DataFrame) (b1 b2 : Bar) (t : Q) :
  get_reserve_move (h1 ++ [b1]) (d1 ++ [b2]) (Some (Num t))
  = Ok (if fgt (fabs (fsub (close b1) (close b2))) (fmul (Num t) c0_75)
        then Exhausted else Normal).
Proof.
  unfold get_reserve_move.
  assert (E1 : empty (h1 ++ [b1]) = false) by (destruct h1; reflexivity).
  assert (E2 : empty (d1 ++ [b2]) = false) by (destruct d1; reflexivity).
  rewrite E1, E2. cbn [orb isnan].
  unfold col. rewrite !map_app. cbn [map]. rewrite !iloc_last.
  cbn [bind result_Monad].
  destruct (fgt _ _); reflexivity.
Qed.



(* ================================================================== *)
(** ** Series and frames *)

Lemma length_zip_with {A B C : Type} (f : A -> B -> C) (xs : list A) (ys : list B) :
  length (zip_with f xs ys) = Nat.min (length xs) (length ys).
Proof.
  revert ys. induction xs as [|x xs IH]; intros [|y ys]; simpl; auto.
Qed.

Lemma nth_error_zip_with {A B C : Type} (f : A -> B -> C) (xs : list A) (ys : list B)
      (i : nat) :
  nth_error (zip_with f xs ys) i
  = match nth_error xs i, nth_error ys i with
    | Some x, Some y => Some (f x y)
    | _, _ => None
    end.
Proof.
  revert ys i. induction xs as [|x xs IH]; intros [|y ys] [|i]; simpl; auto.
  - destruct (nth_error xs i); reflexivity.
Qed.

Lemma map_zip_with_keep {A B C : Type} (g : A -> C) (f : A -> B -> A)
      (xs : list A) (ys : list B) :
  (forall x y, g (f x y) = g x) ->
  (length xs <= length ys)%nat ->
  map g (zip_with f xs ys) = map g xs.
Proof.
  intro Hg. revert ys.
  induction xs as [|x xs IH]; intros [|y ys] Hlen; simpl in *; try lia; auto.
  rewrite Hg, IH by lia. reflexivity.
Qed.

Lemma length_shift (s : Series) : length (shift s) = length s.
Proof.
  destruct s as [|x s]; [reflexivity|].
  unfold shift. cbn [length]. rewrite removelast_firstn_len, length_firstn.
  cbn [length]. lia.
Qed.

Lemma nth_error_shift_S (s : Series) (i : nat) :
  (S i < length s)%nat -> nth_error (shift s) (S i) = nth_error s i.
Proof.
  intro Hi. destruct s as [|x s]; [simpl in Hi; lia|].
  unfold shift. cbn [nth_error].
  rewrite removelast_firstn_len, nth_error_firstn.
  cbn [length Nat.pred] in *.
  replace (i <? length s)%nat with true by (symmetry; apply Nat.ltb_lt; lia).
  reflexivity.
Qed.

Lemma length_series_sub (a b : Series) :
  length (series_sub a b) = Nat.min (length a) (length b).
Proof. apply length_zip_with. Qed.

Lemma length_max_axis1 (a b c : Series) :
  length (max_axis1 a b c) = Nat.min (length a) (Nat.min (length b) (length c)).
Proof.
  revert b c. induction a as [|x a IH]; intros [|y b] [|z c]; simpl; auto.
Qed.

Lemma nth_error_max_axis1 (a b c : Series) (i : nat) (x y z : float) :
  nth_error a i = Some x -> nth_error b i = Some y -> nth_error c i = Some z ->
  nth_error (max_axis1 a b c) i = Some (reduce_skipna Qmaximum 0 [x; y; z]).
Proof.
  revert b c i.
  induction a as [|x0 a IH]; intros [|y0 b] [|z0 c] [|i]; simpl; try discriminate.
  - intros [= ->] [= ->] [= ->]. reflexivity.
  - apply IH.
Qed.

Lemma length_rolling_apply (agg : Q -> list Q -> Q) (r : Rolling) :
  length (rolling_apply agg r) = length (roll_data r).
Proof. unfold rolling_apply. now rewrite length_map, length_seq. Qed.

Lemma nth_error_rolling_apply (agg : Q -> list Q -> Q) (r : Rolling) (i : nat) :
  (i < length (roll_data r))%nat ->
  nth_error (rolling_apply agg r) i
  = Some (reduce_skipna agg (roll_min_periods r) (window_at (roll_window r) i (roll_data r))).
Proof.
  intro Hi. unfold rolling_apply.
  rewrite nth_error_map, nth_error_seq.
  replace (i <? length (roll_data r))%nat with true by (symmetry; apply Nat.ltb_lt; lia).
  reflexivity.
Qed.

Lemma length_high_low_series (d : DataFrame) : length (high_low_series d) = length d.
Proof.
  unfold high_low_series, col. rewrite length_series_sub, !length_map. lia.
Qed.

Lemma length_high_close_series (d : DataFrame) : length (high_close_series d) = length d.
Proof.
  unfold high_close_series, series_abs, col.
  rewrite length_map, length_series_sub, length_shift, !length_map. lia.
Qed.

Lemma length_low_close_series (d : DataFrame) : length (low_close_series d) = length d.
Proof.
  unfold low_close_series, series_abs, col.
  rewrite length_map, length_series_sub, length_shift, !length_map. lia.
Qed.

Lemma length_true_ranges (d : DataFrame) : length (true_ranges d) = length d.
Proof.
  unfold true_ranges.
  rewrite length_max_axis1, length_high_low_series, length_high_close_series,
    length_low_close_series.
  lia.
Qed.

Lemma length_frame_hl (d : DataFrame) : length (frame_hl d) = length d.
Proof.
  unfold frame_hl. rewrite length_zip_with, length_high_low_series. lia.
Qed.

Lemma length_frame_hc (d : DataFrame) : length (frame_hc d) = length d.
Proof.
  unfold frame_hc. rewrite length_zip_with, length_frame_hl, length_high_close_series. lia.
Qed.

Lemma length_frame_lc (d : DataFrame) : length (frame_lc d) = length d.
Proof.
  unfold frame_lc. rewrite length_zip_with, length_frame_hc, length_low_close_series. lia.
Qed.

Lemma length_tr_frame (d : DataFrame) : length (tr_frame d) = length d.
Proof.
  unfold tr_frame. rewrite length_zip_with, length_frame_lc, length_true_ranges. lia.
Qed.

Lemma length_rolling_mean_true_ranges (d : DataFrame) (period : nat) :
  length (rolling_mean (mkRolling (true_ranges d) period 1)) = length d.
Proof.
  unfold rolling_mean. rewrite length_rolling_apply. apply length_true_ranges.
Qed.

Lemma length_atr_frame (d : DataFrame) (period : nat) :
  length (atr_frame d period) = length d.
Proof.
  unfold atr_frame.
  rewrite length_zip_with, length_tr_frame, length_rolling_mean_true_ranges. lia.
Qed.

(** Reading a derived column back after an assignment. *)
Lemma col_derived_set (c : Bar -> option float) (set : Bar -> float -> Bar)
      (d : DataFrame) (vals : Series) :
  (forall b v, c (set b v) = Some v) ->
  length d = length vals ->
  col_derived c (zip_with set d vals) = Ok vals.
Proof.
  intro Hc. revert vals.
  induction d as [|b d IH]; intros [|v vals] Hlen; simpl in *; try discriminate; auto.
  rewrite Hc, IH by lia. reflexivity.
Qed.

Lemma col_derived_keep (c : Bar -> option float) (set : Bar -> float -> Bar)
      (d : DataFrame) (vals : Series) :
  (forall b v, c (set b v) = c b) ->
  length d = length vals ->
  col_derived c (zip_with set d vals) = col_derived c d.
Proof.
  intro Hc. revert vals.
  induction d as [|b d IH]; intros [|v vals] Hlen; simpl in *; try discriminate; auto.
  rewrite Hc, IH by lia. reflexivity.
Qed.

Lemma col_derived_Ok (c : Bar -> option float) (d : DataFrame) (vals : Series) :
  col_derived c d = Ok vals -> map c d = map Some vals.
Proof.
  revert vals. induction d as [|b d IH]; intros vals H; simpl in *.
  - injection H as <-. reflexivity.
  - destruct (c b) as [v|] eqn:E; [|discriminate].
    destruct (col_derived c d) as [vs|e]; [|discriminate].
    injection H as <-. simpl. rewrite (IH vs eq_refl). reflexivity.
Qed.

(** The source columns are the same in every intermediate frame. *)
Lemma col_frame_hl {A : Type} (c : Bar -> A) (d : DataFrame) :
  (forall b v, c (set_high_low b v) = c b) -> col c (frame_hl d) = col c d.
Proof.
  intro Hc. unfold col, frame_hl.
  apply map_zip_with_keep; [exact Hc|]. rewrite length_high_low_series. lia.
Qed.

Lemma col_frame_hc {A : Type} (c : Bar -> A) (d : DataFrame) :
  (forall b v, c (set_high_low b v) = c b) ->
  (forall b v, c (set_high_close b v) = c b) ->
  col c (frame_hc d) = col c d.
Proof.
  intros H1 H2. rewrite <- (col_frame_hl c d H1). unfold col, frame_hc.
  apply map_zip_with_keep; [exact H2|].
  rewrite length_frame_hl, length_high_close_series. lia.
Qed.

Lemma col_frame_lc {A : Type} (c : Bar -> A) (d : DataFrame) :
  (forall b v, c (set_high_low b v) = c b) ->
  (forall b v, c (set_high_close b v) = c b) ->
  (forall b v, c (set_low_close b v) = c b) ->
  col c (frame_lc d) = col c d.
Proof.
  intros H1 H2 H3. rewrite <- (col_frame_hc c d H1 H2). unfold col, frame_lc.
  apply map_zip_with_keep; [exact H3|].
  rewrite length_frame_hc, length_low_close_series. lia.
Qed.

Lemma col_tr_frame {A : Type} (c : Bar -> A) (d : DataFrame) :
  (forall b v, c (set_high_low b v) = c b) ->
  (forall b v, c (set_high_close b v) = c b) ->
  (forall b v, c (set_low_close b v) = c b) ->
  (forall b v, c (set_tr b v) = c b) ->
  col c (tr_frame d) = col c d.
Proof.
  intros H1 H2 H3 H4. rewrite <- (col_frame_lc c d H1 H2 H3). unfold col, tr_frame.
  apply map_zip_with_keep; [exact H4|].
  rewrite length_frame_lc, length_true_ranges. lia.
Qed.

Lemma col_atr_frame {A : Type} (c : Bar -> A) (d : DataFrame) (period : nat) :
  (forall b v, c (set_high_low b v) = c b) ->
  (forall b v, c (set_high_close b v) = c b) ->
  (forall b v, c (set_low_close b v) = c b) ->
  (forall b v, c (set_tr b v) = c b) ->
  (forall b v, c (set_atr b v) = c b) ->
  col c (atr_frame d period) = col c d.
Proof.
  intros H1 H2 H3 H4 H5. rewrite <- (col_tr_frame c d H1 H2 H3 H4). unfold col, atr_frame.
  apply map_zip_with_keep; [exact H5|].
  rewrite length_tr_frame, length_rolling_mean_true_ranges. lia.
Qed.

(** The derived columns of [frame_lc d], [tr_frame d] and [atr_frame d]. *)
Lemma col_derived_high_low (d : DataFrame) :
  col_derived high_low (frame_lc d) = Ok (high_low_series d).
Proof.
  unfold frame_lc.
  rewrite col_derived_keep
    by (try reflexivity; now rewrite length_frame_hc, length_low_close_series).
  unfold frame_hc.
  rewrite col_derived_keep
    by (try reflexivity; now rewrite length_frame_hl, length_high_close_series).
  unfold frame_hl.
  apply col_derived_set; [reflexivity|]. now rewrite length_high_low_series.
Qed.

Lemma col_derived_high_close (d : DataFrame) :
  col_derived high_close (frame_lc d) = Ok (high_close_series d).
Proof.
  unfold frame_lc.
  rewrite col_derived_keep
    by (try reflexivity; now rewrite length_frame_hc, length_low_close_series).
  unfold frame_hc.
  apply col_derived_set; [reflexivity|].
  now rewrite length_frame_hl, length_high_close_series.
Qed.

Lemma col_derived_low_close (d : DataFrame) :
  col_derived low_close (frame_lc d) = Ok (low_close_series d).
Proof.
  unfold frame_lc.
  apply col_derived_set; [reflexivity|].
  now rewrite length_frame_hc, length_low_close_series.
Qed.

Lemma col_derived_tr (d : DataFrame) :
  col_derived tr (tr_frame d) = Ok (true_ranges d).
Proof.
  unfold tr_frame.
  apply col_derived_set; [reflexivity|].
  now rewrite length_frame_lc, length_true_ranges.
Qed.

Lemma col_derived_tr_atr_frame (d : DataFrame) (period : nat) :
  col_derived tr (atr_frame d period) = Ok (true_ranges d).
Proof.
  unfold atr_frame.
  rewrite col_derived_keep
    by (try reflexivity; now rewrite length_tr_frame, length_rolling_mean_true_ranges).
  apply col_derived_tr.
Qed.

Lemma col_derived_atr (d : DataFrame) (period : nat) :
  col_derived atr (atr_frame d period)
  = Ok (rolling_mean (mkRolling (true_ranges d) period 1)).
Proof.
  unfold atr_frame.
  apply col_derived_set; [reflexivity|].
  now rewrite length_tr_frame, length_rolling_mean_true_ranges.
Qed.

(* ================================================================== *)
(** ** The store *)

Lemma bind_run {A B : Type} {c : M A} (k : A -> M B) {h h' : heap} {a : A} :
  c h = (Ok a, h') -> bind c k h = k a h'.
Proof. intro H. cbn. rewrite H. reflexivity. Qed.

Lemma nth_error_app_last {A : Type} (h : list A) (x : A) :
  nth_error (h ++ [x]) (length h) = Some x.
Proof. rewrite nth_error_app2 by lia. now rewrite Nat.sub_diag. Qed.

Lemma update_app_last {A : Type} (h : list A) (x y : A) :
  update (h ++ [x]) (length h) y = h ++ [y].
Proof. induction h as [|z h IH]; simpl; [reflexivity|]. now rewrite IH. Qed.

Lemma load_run {h : heap} {r : ref} {d : DataFrame} :
  nth_error h r = Some d -> load r h = (Ok d, h).
Proof. intro H. unfold load. now rewrite H. Qed.

Lemma copy_run (h : heap) (r : ref) (d : DataFrame) :
  nth_error h r = Some d -> copy r h = (Ok (length h), h ++ [d]).
Proof. intro H. unfold copy. now rewrite (bind_run _ (load_run H)). Qed.

Lemma getitem_fresh {A : Type} (h : heap) (x : DataFrame) (c : Bar -> A) :
  getitem (length h) c (h ++ [x]) = (Ok (col c x), h ++ [x]).
Proof.
  unfold getitem.
  now rewrite (bind_run _ (load_run (nth_error_app_last h x))).
Qed.

Lemma getitem_derived_fresh (h : heap) (x : DataFrame) (c : Bar -> option float) :
  getitem_derived (length h) c (h ++ [x]) = (col_derived c x, h ++ [x]).
Proof.
  unfold getitem_derived.
  now rewrite (bind_run _ (load_run (nth_error_app_last h x))).
Qed.

Lemma setitem_fresh (h : heap) (x : DataFrame) (set : Bar -> float -> Bar) (vals : Series) :
  setitem (length h) set vals (h ++ [x]) = (Ok tt, h ++ [zip_with set x vals]).
Proof.
  unfold setitem.
  rewrite (bind_run _ (load_run (nth_error_app_last h x))).
  unfold store. now rewrite update_app_last.
Qed.

(* ================================================================== *)
(** ** calculate_atr *)

(** One run of calculate_atr, in full: an empty frame is returned as it is;
    otherwise a fresh object receives the derived columns, and a period of
    zero is refused by [rolling] once the true ranges are written. *)
Lemma calculate_atr_run (h : heap) (r : ref) (d : DataFrame) (period : nat) :
  nth_error h r = Some d ->
  calculate_atr r period h
  = match d with
    | [] => (Ok r, h)
    | _ :: _ =>
        if (period =? 0)%nat then (Raise ValueError, h ++ [tr_frame d])
        else (Ok (length h), h ++ [atr_frame d period])
    end.
Proof.
  intro H. unfold calculate_atr.
  rewrite (bind_run _ (load_run H)).
  destruct d as [|b d']; [reflexivity|].
  cbn [empty]. set (d := b :: d') in *.
  rewrite (bind_run _ (copy_run h r d H)).
  rewrite (bind_run _ (getitem_fresh h d high)).
  rewrite (bind_run _ (getitem_fresh h d low)).
  rewrite (bind_run _ (setitem_fresh h d set_high_low _)).
  fold (high_low_series d). fold (frame_hl d).
  rewrite (bind_run _ (getitem_fresh h (frame_hl d) high)).
  rewrite (bind_run _ (getitem_fresh h (frame_hl d) close)).
  rewrite !col_frame_hl by reflexivity.
  rewrite (bind_run _ (setitem_fresh h (frame_hl d) set_high_close _)).
  fold (high_close_series d). fold (frame_hc d).
  rewrite (bind_run _ (getitem_fresh h (frame_hc d) low)).
  rewrite (bind_run _ (getitem_fresh h (frame_hc d) close)).
  rewrite !col_frame_hc by reflexivity.
  rewrite (bind_run _ (setitem_fresh h (frame_hc d) set_low_close _)).
  fold (low_close_series d). fold (frame_lc d).
  assert (G1 : getitem_derived (length h) high_low (h ++ [frame_lc d])
               = (Ok (high_low_series d), h ++ [frame_lc d]))
    by (rewrite getitem_derived_fresh, col_derived_high_low; reflexivity).
  assert (G2 : getitem_derived (length h) high_close (h ++ [frame_lc d])
               = (Ok (high_close_series d), h ++ [frame_lc d]))
    by (rewrite getitem_derived_fresh, col_derived_high_close; reflexivity).
  assert (G3 : getitem_derived (length h) low_close (h ++ [frame_lc d])
               = (Ok (low_close_series d), h ++ [frame_lc d]))
    by (rewrite getitem_derived_fresh, col_derived_low_close; reflexivity).
  rewrite (bind_run _ G1), (bind_run _ G2), (bind_run _ G3).
  rewrite (bind_run _ (setitem_fresh h (frame_lc d) set_tr _)).
  fold (true_ranges d). fold (tr_frame d).
  assert (G4 : getitem_derived (length h) tr (h ++ [tr_frame d])
               = (Ok (true_ranges d), h ++ [tr_frame d]))
    by (rewrite getitem_derived_fresh, col_derived_tr; reflexivity).
  rewrite (bind_run _ G4).
  unfold rolling, lift.
  destruct period as [|p].
  - reflexivity.
  - cbn [Nat.ltb Nat.leb Nat.eqb].
    assert (G5 : (fun h0 : heap => (Ok (mkRolling (true_ranges d) (S p) 1), h0))
                   (h ++ [tr_frame d])
                 = (Ok (mkRolling (true_ranges d) (S p) 1), h ++ [tr_frame d]))
      by reflexivity.
    rewrite (bind_run _ G5).
    rewrite (bind_run _ (setitem_fresh h (tr_frame d) set_atr _)).
    fold (atr_frame d (S p)).
    reflexivity.
Qed.

(** A row of the output frame carries the true range and the rolling mean
    found at its position. *)
Lemma atr_frame_row (d : DataFrame) (period i : nat) (b' : Bar) :
  nth_error (atr_frame d period) i = Some b' ->
  exists t a,
    tr b' = Some t /\ atr b' = Some a
    /\ nth_error (true_ranges d) i = Some t
    /\ nth_error (rolling_mean (mkRolling (true_ranges d) period 1)) i = Some a.
Proof.
  intro Hb.
  pose proof (col_derived_Ok _ _ _ (col_derived_tr_atr_frame d period)) as Ht.
  pose proof (col_derived_Ok _ _ _ (col_derived_atr d period)) as Ha.
  apply (f_equal (fun l => nth_error l i)) in Ht, Ha.
  rewrite !nth_error_map, Hb in Ht, Ha. cbn [option_map] in Ht, Ha.
  destruct (nth_error (true_ranges d) i) as [t|]; [|discriminate].
  destruct (nth_error (rolling_mean _) i) as [a|]; [|discriminate].
  cbn [option_map] in Ht, Ha.
  exists t, a. repeat split; congruence.
Qed.

(** The previous close seen by bar [i]: NaN for the first bar. *)
Lemma nth_error_true_ranges (d : DataFrame) (i : nat) (b : Bar) :
  nth_error d i = Some b ->
  exists pc,
    match i with
    | O => pc = NaN
    | S j => exists bp, nth_error d j = Some bp /\ pc = close bp
    end
    /\ nth_error (true_ranges d) i
       = Some (reduce_skipna Qmaximum 0
                 [fsub (high b) (low b); fabs (fsub (high b) pc); fabs (fsub (low b) pc)]).
Proof.
  intro Hb.
  assert (Hi : (i < length d)%nat) by (apply nth_error_Some; congruence).
  assert (Hpc : exists pc,
             match i with
             | O => pc = NaN
             | S j => exists bp, nth_error d j = Some bp /\ pc = close bp
             end
             /\ nth_error (shift (col close d)) i = Some pc).
  { destruct i as [|j].
    - exists NaN. split; [reflexivity|]. destruct d; [discriminate|reflexivity].
    - destruct (nth_error d j) as [bp|] eqn:Ej.
      + exists (close bp). split; [eauto|].
        rewrite nth_error_shift_S by (unfold col; rewrite length_map; lia).
        unfold col. rewrite nth_error_map, Ej. reflexivity.
      + apply nth_error_None in Ej. lia. }
  destruct Hpc as [pc [Hpc Hs]].
  exists pc. split; [exact Hpc|].
  unfold true_ranges. apply nth_error_max_axis1.
  - unfold high_low_series, series_sub, col.
    rewrite nth_error_zip_with, !nth_error_map, Hb. reflexivity.
  - unfold high_close_series, series_abs, series_sub.
    rewrite nth_error_map, nth_error_zip_with, Hs.
    unfold col. rewrite nth_error_map, Hb. reflexivity.
  - unfold low_close_series, series_abs, series_sub.
    rewrite nth_error_map, nth_error_zip_with, Hs.
    unfold col. rewrite nth_error_map, Hb. reflexivity.
Qed.

(** Series without NaN. *)
Lemma observations_map_Num (ts : list Q) : observations (map Num ts) = ts.
Proof. induction ts as [|t ts IH]; simpl; [reflexivity|]. now rewrite IH. Qed.

Lemma all_Num_map (s : Series) :
  (forall i x, nth_error s i = Some x -> exists q, x = Num q) ->
  s = map Num (observations s).
Proof.
  induction s as [|x s IH]; intro H; [reflexivity|].
  destruct (H 0%nat x eq_refl) as [q ->].
  simpl. f_equal. apply IH. intros i y Hy. apply (H (S i) y Hy).
Qed.

Lemma window_at_firstn_skipn {A : Type} (ts : list A) (N i : nat) :
  skipn (i + 1 - N) (firstn (i + 1) ts)
  = firstn (Nat.min N (i + 1)) (skipn (i + 1 - N) ts).
Proof.
  rewrite firstn_skipn_comm. f_equal. f_equal. lia.
Qed.

(** The rolling mean of a series without NaN, at a position inside it. *)
Lemma rolling_mean_defined (ts : list Q) (N i : nat) :
  (0 < N)%nat -> (i < length ts)%nat ->
  let win := firstn (Nat.min N (i + 1)) (skipn (i + 1 - N) ts) in
  length win = Nat.min N (i + 1)
  /\ nth_error (rolling_mean (mkRolling (map Num ts) N 1)) i
     = Some (Num (Qsum win / inject_Z (Z.of_nat (length win)))).
Proof.
  intros HN Hi win.
  assert (Hlen : length win = Nat.min N (i + 1)).
  { unfold win. rewrite length_firstn, length_skipn. lia. }
  split; [exact Hlen|].
  unfold rolling_mean.
  rewrite nth_error_rolling_apply by (cbn [roll_data]; rewrite length_map; lia).
  cbn [roll_data roll_window roll_min_periods]. unfold window_at.
  rewrite firstn_map, skipn_map, window_at_firstn_skipn. fold win.
  unfold reduce_skipna. rewrite observations_map_Num.
  destruct win as [|q qs] eqn:E; [simpl in Hlen; lia|].
  replace (length (q :: qs) <? 1)%nat with false
    by (symmetry; apply Nat.ltb_ge; simpl; lia).
  reflexivity.
Qed.

(** C8.  With a positive period, or on an empty series, calculate_atr
    returns a frame with as many rows as its input, every row carrying an
    ATR value; on an empty series it returns the (empty) input itself and
    raises no error, whatever the period. *)
Theorem calculate_atr_aligned (h : heap) (r : ref) (d : DataFrame) (period : nat) :
  nth_error h r = Some d ->
  (0 < period)%nat \/ d = [] ->
  exists r' h' d',
    calculate_atr r period h = (Ok r', h')
    /\ nth_error h' r' = Some d'
    /\ length d' = length d
    /\ (forall i b', nth_error d' i = Some b' -> exists a, atr b' = Some a)
    /\ (d = [] -> r' = r /\ h' = h /\ d' = []).
Proof.
  intros H Hp. rewrite (calculate_atr_run h r d period H).
  destruct d as [|b d0].
  - exists r, h, []. repeat split; auto.
    intros [|i] b' Hb; discriminate.
  - destruct Hp as [Hp | Hp]; [|discriminate].
    replace (period =? 0)%nat with false by (symmetry; apply Nat.eqb_neq; lia).
    exists (length h), (h ++ [atr_frame (b :: d0) period]), (atr_frame (b :: d0) period).
    split; [reflexivity|]. split; [apply nth_error_app_last|].
    split; [apply length_atr_frame|]. split; [|discriminate].
    intros i b' Hb. destruct (atr_frame_row _ _ _ _ Hb) as (t & a & _ & Ha & _).
    eauto.
Qed.

Lemma calculate_atr_aligned_witness :
  exists r' h' d',
    calculate_atr 0%nat ATR_PERIOD
      [[candle 1 10 12 9 11 1; candle 2 11 15 10 14 1; candle 3 14 14 8 9 1]]
    = (Ok r', h')
    /\ nth_error h' r' = Some d'
    /\ length d' = 3%nat
    /\ (forall i b', nth_error d' i = Some b' -> exists a, atr b' = Some a)
    /\ ([candle 1 10 12 9 11 1; candle 2 11 15 10 14 1; candle 3 14 14 8 9 1] = []
        -> r' = 0%nat
           /\ h' = [[candle 1 10 12 9 11 1; candle 2 11 15 10 14 1; candle 3 14 14 8 9 1]]
           /\ d' = []).
Proof.
  apply (calculate_atr_aligned
           [[candle 1 10 12 9 11 1; candle 2 11 15 10 14 1; candle 3 14 14 8 9 1]]
           0%nat
           [candle 1 10 12 9 11 1; candle 2 11 15 10 14 1; candle 3 14 14 8 9 1]
           ATR_PERIOD).
  - reflexivity.
  - left. unfold ATR_PERIOD. lia.
Defined.

(** C9.  Whatever the period, a call of calculate_atr leaves every object
    that existed before it unchanged, the input frame among them; when it
    returns on a non-empty input the result is a new object, and the
    timestamp, open, high, low, close and volume of its rows are those of
    the input rows. *)
Theorem calculate_atr_preserves_source (h : heap) (r : ref) (d : DataFrame) (period : nat) :
  nth_error h r = Some d ->
  exists res h',
    calculate_atr r period h = (res, h')
    /\ (forall r0 d0, nth_error h r0 = Some d0 -> nth_error h' r0 = Some d0)
    /\ forall r', res = Ok r' ->
         (d <> [] -> nth_error h r' = None)
         /\ exists d', nth_error h' r' = Some d'
                       /\ map source_fields d' = map source_fields d.
Proof.
  intro H. rewrite (calculate_atr_run h r d period H).
  destruct d as [|b d0].
  - exists (Ok r), h. split; [reflexivity|]. split; [auto|].
    intros r' [= <-]. split; [congruence|]. exists []. auto.
  - destruct (period =? 0)%nat.
    + exists (Raise ValueError), (h ++ [tr_frame (b :: d0)]).
      split; [reflexivity|]. split; [|discriminate].
      intros r0 d0' Hr0. rewrite nth_error_app1; [exact Hr0|].
      apply nth_error_Some. congruence.
    + exists (Ok (length h)), (h ++ [atr_frame (b :: d0) period]).
      split; [reflexivity|]. split.
      * intros r0 d0' Hr0. rewrite nth_error_app1; [exact Hr0|].
        apply nth_error_Some. congruence.
      * intros r' [= <-]. split; [intros _; apply nth_error_None; lia|].
        exists (atr_frame (b :: d0) period). split; [apply nth_error_app_last|].
        apply (col_atr_frame source_fields); reflexivity.
Qed.

Lemma calculate_atr_preserves_source_witness :
  exists res h',
    calculate_atr 0%nat ATR_PERIOD [[candle 1 10 12 9 11 1; candle 2 11 15 10 14 1]]
    = (res, h')
    /\ (forall r0 d0,
          nth_error [[candle 1 10 12 9 11 1; candle 2 11 15 10 14 1]] r0 = Some d0 ->
          nth_error h' r0 = Some d0)
    /\ forall r', res = Ok r' ->
         ([candle 1 10 12 9 11 1; candle 2 11 15 10 14 1] <> [] ->
          nth_error [[candle 1 10 12 9 11 1; candle 2 11 15 10 14 1]] r' = None)
         /\ exists d', nth_error h' r' = Some d'
                       /\ map source_fields d'
                          = map source_fields [candle 1 10 12 9 11 1; candle 2 11 15 10 14 1].
Proof.
  apply (calculate_atr_preserves_source
           [[candle 1 10 12 9 11 1; candle 2 11 15 10 14 1]] 0%nat
           [candle 1 10 12 9 11 1; candle 2 11 15 10 14 1] ATR_PERIOD).
  reflexivity.
Defined.

Lemma nth_error_window {A : Type} (ts : list A) (s w j : nat) :
  (j < w)%nat -> nth_error (firstn w (skipn s ts)) j = nth_error ts (s + j).
Proof.
  intro Hj. rewrite nth_error_firstn, nth_error_skipn.
  replace (j <? w)%nat with true by (symmetry; apply Nat.ltb_lt; lia).
  reflexivity.
Qed.

Lemma Qsum_nonneg (l : list Q) : (forall x, In x l -> 0 <= x) -> 0 <= Qsum l.
Proof.
  induction l as [|x l IH]; intro H; simpl.
  - apply Qle_refl.
  - assert (0 <= x) by (apply H; now left).
    assert (0 <= Qsum l) by (apply IH; intros y Hy; apply H; now right).
    lra.
Qed.

Lemma Qmean_nonneg (l : list Q) :
  l <> [] -> (forall x, In x l -> 0 <= x) ->
  0 <= Qsum l / inject_Z (Z.of_nat (length l)).
Proof.
  intros Hne H.
  apply Qle_shift_div_l.
  - destruct l as [|x l]; [congruence|].
    replace 0 with (inject_Z 0) by reflexivity. rewrite <- Zlt_Qlt. simpl length. lia.
  - rewrite Qmult_0_l. now apply Qsum_nonneg.
Qed.

(** The row-wise maximum is a number, no smaller than a first column that
    is a number. *)
Lemma max_axis1_first_defined (a : Q) (x y : float) :
  exists m, reduce_skipna Qmaximum 0 [Num a; x; y] = Num m /\ a <= m.
Proof.
  destruct x as [|b], y as [|c]; cbn; eexists; (split; [reflexivity|]).
  - apply Qle_refl.
  - apply Q.le_max_l.
  - apply Q.le_max_l.
  - eapply Qle_trans; [|apply Q.le_max_l]. apply Q.le_max_l.
Qed.

Lemma true_ranges_nonneg (d : DataFrame) :
  (forall b, In b d -> fge (high b) (low b) = true) ->
  forall i x, nth_error (true_ranges d) i = Some x -> exists t, x = Num t /\ 0 <= t.
Proof.
  intros Hd i x Hx.
  assert (Hi : (i < length d)%nat)
    by (rewrite <- length_true_ranges; apply nth_error_Some; congruence).
  destruct (nth_error d i) as [b|] eqn:Eb; [|apply nth_error_None in Eb; lia].
  destruct (nth_error_true_ranges d i b Eb) as (pc & _ & Ht).
  rewrite Ht in Hx. injection Hx as <-.
  specialize (Hd b (nth_error_In _ _ Eb)).
  unfold fge, fle in Hd.
  destruct (high b) as [|hh]; [destruct (low b); discriminate|].
  destruct (low b) as [|ll]; [discriminate|].
  apply Qle_bool_iff in Hd.
  change (fsub (Num hh) (Num ll)) with (Num (hh - ll)).
  destruct (max_axis1_first_defined (hh - ll) (fabs (fsub (Num hh) pc))
              (fabs (fsub (Num ll) pc))) as (m & -> & Hm).
  exists m. split; [reflexivity|]. lra.
Qed.

(** C10.  When every bar has high >= low, every true range and every ATR
    value that calculate_atr writes is a number and is non-negative. *)
Theorem calculate_atr_nonnegative (h : heap) (r : ref) (d : DataFrame) (period : nat) :
  nth_error h r = Some d ->
  (0 < period)%nat ->
  (forall b, In b d -> fge (high b) (low b) = true) ->
  exists r' h' d',
    calculate_atr r period h = (Ok r', h')
    /\ nth_error h' r' = Some d'
    /\ forall b', In b' d' ->
         exists t a, tr b' = Some (Num t) /\ 0 <= t /\ atr b' = Some (Num a) /\ 0 <= a.
Proof.
  intros H Hp Hd. rewrite (calculate_atr_run h r d period H).
  destruct d as [|b0 d0].
  - exists r, h, []. split; [reflexivity|]. split; [exact H|]. intros b' [].
  - cbv iota.
    remember (b0 :: d0) as d eqn:Ed.
    replace (period =? 0)%nat with false by (symmetry; apply Nat.eqb_neq; lia).
    exists (length h), (h ++ [atr_frame d period]), (atr_frame d period).
    split; [reflexivity|]. split; [apply nth_error_app_last|].
    intros b' Hb'. apply In_nth_error in Hb'. destruct Hb' as [i Hi].
    destruct (atr_frame_row d period i b' Hi) as (t & a & Ht & Ha & Hti & Hai).
    pose proof (true_ranges_nonneg d Hd) as Hnn.
    destruct (Hnn i t Hti) as (tq & -> & Htq).
    assert (Hall : true_ranges d = map Num (observations (true_ranges d))).
    { apply all_Num_map. intros j x Hx. destruct (Hnn j x Hx) as (q & -> & _). eauto. }
    remember (observations (true_ranges d)) as ts eqn:Ets.
    assert (Hi' : (i < length ts)%nat).
    { rewrite <- (length_map Num), <- Hall. apply nth_error_Some. congruence. }
    destruct (rolling_mean_defined ts period i Hp Hi') as [Hlen Hm].
    cbv zeta in Hlen, Hm.
    remember (firstn (Nat.min period (i + 1)) (skipn (i + 1 - period) ts)) as win eqn:Ewin.
    rewrite Hall, Hm in Hai. injection Hai as <-.
    exists tq. eexists. repeat split; [exact Ht|exact Htq|exact Ha|].
    apply Qmean_nonneg.
    + intro E. rewrite E in Hlen. simpl in Hlen. lia.
    + intros x Hx. apply In_nth_error in Hx. destruct Hx as [j Hj].
      assert (Hjw : (j < Nat.min period (i + 1))%nat).
      { rewrite <- Hlen. apply nth_error_Some. congruence. }
      rewrite Ewin, nth_error_window in Hj by exact Hjw.
      assert (Hx : nth_error (true_ranges d) (i + 1 - period + j) = Some (Num x)).
      { rewrite Hall, nth_error_map, Hj. reflexivity. }
      destruct (Hnn _ _ Hx) as (q & [= <-] & Hq). exact Hq.
Qed.

Lemma calculate_atr_nonnegative_witness :
  exists r' h' d',
    calculate_atr 0%nat 2%nat
      [[candle 1 10 12 9 11 1; candle 2 11 15 10 14 1; candle 3 14 14 8 9 1]]
    = (Ok r', h')
    /\ nth_error h' r' = Some d'
    /\ forall b', In b' d' ->
         exists t a, tr b' = Some (Num t) /\ 0 <= t /\ atr b' = Some (Num a) /\ 0 <= a.
Proof.
  apply (calculate_atr_nonnegative
           [[candle 1 10 12 9 11 1; candle 2 11 15 10 14 1; candle 3 14 14 8 9 1]]
           0%nat
           [candle 1 10 12 9 11 1; candle 2 11 15 10 14 1; candle 3 14 14 8 9 1]
           2%nat).
  - reflexivity.
  - lia.
  - intros b [<- | [<- | [<- | []]]]; reflexivity.
Defined.

(** On a series without NaN the true ranges are those of the
    specification. *)
Lemma true_ranges_spec (d : DataFrame) (H L C : nat -> Q) :
  (forall i b, nth_error d i = Some b ->
               high b = Num (H i) /\ low b = Num (L i) /\ close b = Num (C i)) ->
  true_ranges d = map Num (map (spec_true_range H L C) (seq 0 (length d))).
Proof.
  intro Hd. apply nth_error_ext. intro i.
  rewrite !nth_error_map, nth_error_seq.
  destruct (Nat.ltb_spec i (length d)) as [Hi|Hi].
  - destruct (nth_error d i) as [b|] eqn:Eb; [|apply nth_error_None in Eb; lia].
    destruct (nth_error_true_ranges d i b Eb) as (pc & Hpc & ->).
    destruct (Hd i b Eb) as (-> & -> & _).
    cbn [option_map Nat.add]. f_equal.
    destruct i as [|j].
    + subst pc. reflexivity.
    + destruct Hpc as (bp & Hbp & ->).
      destruct (Hd j bp Hbp) as (_ & _ & ->). reflexivity.
  - cbn [option_map]. apply nth_error_None. rewrite length_true_ranges. lia.
Qed.

Lemma window_of_seq (TR : nat -> Q) (n N i : nat) :
  (i < n)%nat ->
  firstn (Nat.min N (i + 1)) (skipn (i + 1 - N) (map TR (seq 0 n)))
  = map TR (seq (i + 1 - Nat.min N (i + 1)) (Nat.min N (i + 1))).
Proof.
  intro Hi. apply nth_error_ext. intro j.
  rewrite nth_error_firstn, nth_error_skipn, !nth_error_map, !nth_error_seq.
  destruct (Nat.ltb_spec j (Nat.min N (i + 1))) as [Hj|Hj]; [|reflexivity].
  replace (i + 1 - N + j <? n)%nat with true by (symmetry; apply Nat.ltb_lt; lia).
  cbn [option_map]. do 2 f_equal. lia.
Qed.



(* ================================================================== *)
(** ** Rolling extremes *)

Section Extreme.

Variable op : Q -> Q -> Q.
Variable R : Q -> Q -> Prop.

Hypothesis R_refl : forall x y, x == y -> R x y.
Hypothesis R_trans : forall x y z, R x y -> R y z -> R x z.
Hypothesis R_antisym : forall x y, R x y -> R y x -> x == y.
Hypothesis op_l : forall x y, R x (op x y).
Hypothesis op_r : forall x y, R y (op x y).
Hypothesis op_sel : forall x y, op x y == x \/ op x y == y.

Lemma fold_left_extreme (qs : list Q) (q : Q) :
  extreme_of R (q :: qs) (fold_left op qs q).
Proof.
  revert q. induction qs as [|a qs IH]; intro q; cbn [fold_left].
  - split.
    + intros x [<- | []]. apply R_refl. reflexivity.
    + exists q. split; [now left | reflexivity].
  - destruct (IH (op q a)) as [Hb (x & Hx & Hm)]. split.
    + intros y [<- | [<- | Hy]].
      * eapply R_trans; [apply op_l | apply Hb; now left].
      * eapply R_trans; [apply op_r | apply Hb; now left].
      * apply Hb. now right.
    + destruct Hx as [<- | Hx].
      * destruct (op_sel q a) as [E | E].
        -- exists q. split; [now left | now rewrite Hm].
        -- exists a. split; [right; now left | now rewrite Hm].
      * exists x. split; [right; now right | exact Hm].
Qed.

Lemma fold_right_extreme_cons (l : list Q) (x : Q) :
  extreme_of R (x :: l) (fold_right op x l).
Proof.
  induction l as [|a l IH]; cbn [fold_right].
  - split.
    + intros y [<- | []]. apply R_refl. reflexivity.
    + exists x. split; [now left | reflexivity].
  - destruct IH as [Hb (y & Hy & Hm)]. split.
    + intros z [<- | [<- | Hz]].
      * eapply R_trans; [apply Hb; now left | apply op_r].
      * apply op_l.
      * eapply R_trans; [apply Hb; now right | apply op_r].
    + destruct (op_sel a (fold_right op x l)) as [E | E].
      * exists a. split; [right; now left | exact E].
      * exists y. split; [|now rewrite E].
        destruct Hy as [<- | Hy]; [now left | right; now right].
Qed.

Lemma fold_right_extreme (l : list Q) (x : Q) :
  In x l -> extreme_of R l (fold_right op x l).
Proof.
  intro Hx. destruct (fold_right_extreme_cons l x) as [Hb (y & Hy & Hm)]. split.
  - intros z Hz. apply Hb. now right.
  - exists y. split; [|exact Hm]. destruct Hy as [<- | Hy]; assumption.
Qed.

Lemma extreme_unique (l : list Q) (m m' : Q) :
  extreme_of R l m -> extreme_of R l m' -> m == m'.
Proof.
  intros [Hb (x & Hx & Hm)] [Hb' (x' & Hx' & Hm')].
  apply R_antisym.
  - eapply R_trans; [apply R_refl; exact Hm | apply Hb'; exact Hx].
  - eapply R_trans; [apply R_refl; exact Hm' | apply Hb; exact Hx'].
Qed.

(** The two ways of folding over a window that contains [x] agree. *)
Lemma fold_left_fold_right (q : Q) (qs : list Q) (x : Q) :
  In x (q :: qs) -> fold_left op qs q == fold_right op x (q :: qs).
Proof.
  intro Hx. apply (extreme_unique (q :: qs)).
  - apply fold_left_extreme.
  - now apply fold_right_extreme.
Qed.

End Extreme.

(** The two instances: maxima for [<=], minima for [>=]. *)
Lemma Qmax_fold_right_extreme (l : list Q) (x : Q) :
  In x l -> extreme_of Qle l (fold_right Qmax x l).
Proof.
  apply fold_right_extreme.
  - intros a b E. rewrite E. apply Qle_refl.
  - apply Qle_trans.
  - apply Q.le_max_l.
  - apply Q.le_max_r.
  - intros a b. destruct (Q.max_spec a b) as [[_ E] | [_ E]]; auto.
Qed.

Lemma Qmin_fold_right_extreme (l : list Q) (x : Q) :
  In x l -> extreme_of (fun a b => b <= a) l (fold_right Qmin x l).
Proof.
  apply fold_right_extreme.
  - intros a b E. rewrite E. apply Qle_refl.
  - intros a b c Hab Hbc. eapply Qle_trans; eauto.
  - apply Q.le_min_l.
  - apply Q.le_min_r.
  - intros a b. destruct (Q.min_spec a b) as [[_ E] | [_ E]]; auto.
Qed.

Lemma Qmaximum_fold_right (q : Q) (qs : list Q) (x : Q) :
  In x (q :: qs) -> Qmaximum q qs == fold_right Qmax x (q :: qs).
Proof.
  apply (fold_left_fold_right Qmax Qle).
  - intros a b E. rewrite E. apply Qle_refl.
  - apply Qle_trans.
  - apply Qle_antisym.
  - apply Q.le_max_l.
  - apply Q.le_max_r.
  - intros a b. destruct (Q.max_spec a b) as [[_ E] | [_ E]]; auto.
Qed.

Lemma Qminimum_fold_right (q : Q) (qs : list Q) (x : Q) :
  In x (q :: qs) -> Qminimum q qs == fold_right Qmin x (q :: qs).
Proof.
  apply (fold_left_fold_right Qmin (fun a b => b <= a)).
  - intros a b E. rewrite E. apply Qle_refl.
  - intros a b c Hab Hbc. eapply Qle_trans; eauto.
  - intros a b Hab Hba. now apply Qle_antisym.
  - apply Q.le_min_l.
  - apply Q.le_min_r.
  - intros a b. destruct (Q.min_spec a b) as [[_ E] | [_ E]]; auto.
Qed.

(** The rolling extremes of the specification are what their names say:
    the greatest high, respectively the least low, of the bars
    [i+1-w .. i] with [w = min W (i+1)]. *)
Lemma spec_rolling_max_greatest (W : nat) (X : nat -> Q) (i : nat) :
  (0 < W)%nat ->
  extreme_of Qle (map X (seq (i + 1 - Nat.min W (i + 1)) (Nat.min W (i + 1))))
             (spec_rolling Qmax W X i).
Proof.
  intro HW. unfold spec_rolling. cbv zeta.
  apply Qmax_fold_right_extreme. apply in_map, in_seq. lia.
Qed.

Lemma spec_rolling_min_least (W : nat) (X : nat -> Q) (i : nat) :
  (0 < W)%nat ->
  extreme_of (fun a b => b <= a)
             (map X (seq (i + 1 - Nat.min W (i + 1)) (Nat.min W (i + 1))))
             (spec_rolling Qmin W X i).
Proof.
  intro HW. unfold spec_rolling. cbv zeta.
  apply Qmin_fold_right_extreme. apply in_map, in_seq. lia.
Qed.

(** A rolling reduction of a series without NaN, at a position inside it. *)
Lemma rolling_apply_defined (agg : Q -> list Q -> Q) (ts : list Q) (W i : nat) :
  (0 < W)%nat -> (i < length ts)%nat ->
  exists q qs,
    firstn (Nat.min W (i + 1)) (skipn (i + 1 - W) ts) = q :: qs
    /\ nth_error (rolling_apply agg (mkRolling (map Num ts) W 1)) i = Some (Num (agg q qs)).
Proof.
  intros HW Hi.
  remember (firstn (Nat.min W (i + 1)) (skipn (i + 1 - W) ts)) as win eqn:Ewin.
  assert (Hlen : length win = Nat.min W (i + 1)).
  { rewrite Ewin, length_firstn, length_skipn. lia. }
  destruct win as [|q qs]; [simpl in Hlen; lia|].
  exists q, qs. split; [reflexivity|].
  rewrite nth_error_rolling_apply by (cbn [roll_data]; rewrite length_map; lia).
  cbn [roll_data roll_window roll_min_periods]. unfold window_at.
  rewrite firstn_map, skipn_map, window_at_firstn_skipn, <- Ewin.
  unfold reduce_skipna. rewrite observations_map_Num.
  replace (length (q :: qs) <? 1)%nat with false
    by (symmetry; apply Nat.ltb_ge; simpl; lia).
  reflexivity.
Qed.

(* ================================================================== *)
(** ** find_key_levels *)

Lemma for_each_map {A B S : Type} (f : A -> B) (xs : list A)
      (body : S -> B -> result S) (s : S) :
  for_each (map f xs) body s = for_each xs (fun s' x => body s' (f x)) s.
Proof.
  revert s. induction xs as [|x xs IH]; intro s; cbn [map for_each]; [reflexivity|].
  cbn [bind result_Monad]. destruct (body s (f x)); [apply IH | reflexivity].
Qed.

(** A loop whose body only appends to the accumulator. *)
Lemma for_each_app {A B : Type} (xs : list A) (body : list B -> A -> result (list B))
      (emit : A -> list B) :
  (forall x acc, In x xs -> body acc x = Ok (acc ++ emit x)) ->
  forall acc, for_each xs body acc = Ok (acc ++ flat_map emit xs).
Proof.
  induction xs as [|x xs IH]; intros Hbody acc; cbn [for_each flat_map].
  - now rewrite app_nil_r.
  - rewrite (Hbody x acc) by now left. cbn [bind result_Monad].
    rewrite IH by (intros y acc' Hy; apply Hbody; now right).
    now rewrite app_assoc.
Qed.

Lemma range_interior (n : nat) :
  range 1 (Z.of_nat n - 1) = map Z.of_nat (seq 1 (n - 2)).
Proof.
  unfold range.
  replace (Z.to_nat (Z.of_nat n - 1 - 1)) with (n - 2)%nat by lia.
  rewrite <- seq_shift, map_map. apply map_ext. intro k. lia.
Qed.

Lemma col_of_function {A : Type} (c : Bar -> A) (X : nat -> A) (d : DataFrame) :
  (forall i b, nth_error d i = Some b -> c b = X i) ->
  col c d = map X (seq 0 (length d)).
Proof.
  intro H. apply nth_error_ext. intro i. unfold col.
  rewrite !nth_error_map, nth_error_seq.
  destruct (Nat.ltb_spec i (length d)) as [Hi|Hi].
  - destruct (nth_error d i) as [b|] eqn:Eb; [|apply nth_error_None in Eb; lia].
    cbn [option_map Nat.add]. now rewrite (H i b Eb).
  - replace (nth_error d i) with (@None Bar) by (symmetry; now apply nth_error_None).
    reflexivity.
Qed.

(** The rolling extreme that pandas computes at an interior position agrees
    with the one of the specification. *)
Lemma rolling_extreme_spec (agg : Q -> list Q -> Q) (op : Q -> Q -> Q)
      (X : nat -> Q) (n W i : nat) :
  (forall q qs x, In x (q :: qs) -> agg q qs == fold_right op x (q :: qs)) ->
  (0 < W)%nat -> (i < n)%nat ->
  exists m,
    nth_error (rolling_apply agg (mkRolling (map Num (map X (seq 0 n))) W 1)) i
    = Some (Num m)
    /\ m == spec_rolling op W X i.
Proof.
  intros Hagg HW Hi.
  assert (Hi' : (i < length (map X (seq 0 n)))%nat)
    by (rewrite length_map, length_seq; exact Hi).
  destruct (rolling_apply_defined agg (map X (seq 0 n)) W i HW Hi')
    as (q & qs & Hwin & Hnth).
  exists (agg q qs). split; [exact Hnth|].
  rewrite (window_of_seq X n W i Hi) in Hwin.
  unfold spec_rolling. cbv zeta. rewrite Hwin.
  apply Hagg. rewrite <- Hwin. apply in_map, in_seq. lia.
Qed.

Lemma find_key_levels_short (d : DataFrame) :
  (length d <= 2)%nat -> find_key_levels d = Ok [].
Proof.
  intro Hlen. unfold find_key_levels.
  destruct d as [|b d']; [reflexivity|].
  cbn [empty]. unfold rolling. cbn [Nat.ltb Nat.leb bind result_Monad].
  rewrite range_interior.
  replace (length (b :: d') - 2)%nat with 0%nat by lia.
  reflexivity.
Qed.

(** C5.  find_key_levels scans the interior indices 1 .. length-2 in order
    and emits at index i a resistance level (high i, timestamp i) when
    high i equals the rolling maximum of the highs over the trailing 20
    bars ending at i (fewer while fewer exist), then a support level
    (low i, timestamp i) when low i equals the rolling minimum of the lows;
    a series of at most two bars yields no level. *)
Theorem find_key_levels_interior_extremes (d : DataFrame) (T : nat -> Z) (H L : nat -> Q) :
  ((forall i b, nth_error d i = Some b ->
                timestamp b = T i /\ high b = Num (H i) /\ low b = Num (L i)) ->
   find_key_levels d = Ok (spec_find_key_levels 20 T H L (length d)))
  /\ ((length d <= 2)%nat -> find_key_levels d = Ok []).
Proof.
  split; [|apply find_key_levels_short].
  intro Hd. unfold find_key_levels.
  destruct d as [|b0 d0]; [reflexivity|].
  cbn [empty]. remember (b0 :: d0) as d eqn:Ed.
  unfold rolling. cbn [Nat.ltb Nat.leb bind result_Monad].
  rewrite range_interior, for_each_map.
  unfold spec_find_key_levels.
  rewrite (col_of_function timestamp T d) by (intros i b Hb; apply (Hd i b Hb)).
  rewrite (col_of_function high (fun i => Num (H i)) d) by (intros i b Hb; apply (Hd i b Hb)).
  rewrite (col_of_function low (fun i => Num (L i)) d) by (intros i b Hb; apply (Hd i b Hb)).
  rewrite <- (map_map H Num), <- (map_map L Num).
  apply (for_each_app (seq 1 (length d - 2)) _ (spec_levels_at 20 T H L)).
  intros i acc Hi. apply in_seq in Hi.
  assert (Hlt : (i < length d)%nat) by lia.
  destruct (rolling_extreme_spec Qmaximum Qmax H (length d) 20 i Qmaximum_fold_right)
    as (hmax & Hhmax & Ehmax); [lia|exact Hlt|].
  destruct (rolling_extreme_spec Qminimum Qmin L (length d) 20 i Qminimum_fold_right)
    as (lmin & Hlmin & Elmin); [lia|exact Hlt|].
  assert (IT : iloc (map T (seq 0 (length d))) (Z.of_nat i) = Ok (T i)).
  { apply iloc_nat. rewrite nth_error_map, nth_error_seq.
    replace (i <? length d)%nat with true by (symmetry; apply Nat.ltb_lt; lia).
    reflexivity. }
  assert (IH : iloc (map Num (map H (seq 0 (length d)))) (Z.of_nat i) = Ok (Num (H i))).
  { apply iloc_nat. rewrite !nth_error_map, nth_error_seq.
    replace (i <? length d)%nat with true by (symmetry; apply Nat.ltb_lt; lia).
    reflexivity. }
  assert (IL : iloc (map Num (map L (seq 0 (length d)))) (Z.of_nat i) = Ok (Num (L i))).
  { apply iloc_nat. rewrite !nth_error_map, nth_error_seq.
    replace (i <? length d)%nat with true by (symmetry; apply Nat.ltb_lt; lia).
    reflexivity. }
  apply iloc_nat in Hhmax, Hlmin.
  unfold rolling_max, rolling_min.
  rewrite IH, IL, IT, Hhmax, Hlmin. cbn [bind result_Monad feq].
  unfold spec_levels_at.
  rewrite <- (Qeqb_comp (H i) (H i) (Qeq_refl _) hmax _ Ehmax).
  rewrite <- (Qeqb_comp (L i) (L i) (Qeq_refl _) lmin _ Elmin).
  destruct (Qeq_bool (H i) hmax), (Qeq_bool (L i) lmin);
    cbn [bind result_Monad app]; rewrite <- ?app_assoc, ?app_nil_r; reflexivity.
Qed.

Lemma find_key_levels_interior_extremes_witness :
  let d := [candle 1 10 12 9 11 1; candle 2 11 15 10 14 1; candle 3 14 14 8 9 1] in
  let T := fun i => nth i [1; 2; 3]%Z 0%Z in
  let H := fun i => nth i [12; 15; 14] 0 in
  let L := fun i => nth i [9; 10; 8] 0 in
  find_key_levels d = Ok (spec_find_key_levels 20 T H L (length d)).
Proof.
  intros d T H L.
  apply (proj1 (find_key_levels_interior_extremes d T H L)).
  intros i b Hb.
  destruct i as [|[|[|i]]]; simpl in Hb;
    [| | |destruct i; discriminate];
    injection Hb as <-; repeat split; reflexivity.
Defined.

(* ================================================================== *)
(** ** find_round_levels *)



Lemma inject_Z_nonzero (G : Z) : G <> 0%Z -> ~ inject_Z G == 0.
Proof.
  intros HG E. apply HG. now apply inject_Z_injective.
Qed.




Lemma find_round_levels_cons (p : Q) (G : Z) (Gs : list Z) :
  G <> 0%Z ->
  find_round_levels (Some (Num p)) (G :: Gs)
  = if Qltb (Qabs (p - inject_Z (round_half_even (p / inject_Z G) * G)))
            (inject_Z G * (1 # 10))
    then Ok (Some (round_half_even (p / inject_Z G) * G)%Z)
    else find_round_levels (Some (Num p)) Gs.
Proof.
  intro HG. unfold find_round_levels. cbn [isnan].
  unfold fdiv, of_int.
  replace (Qeq_bool (inject_Z G) 0) with false.
  - reflexivity.
  - symmetry. destruct (Qeq_bool (inject_Z G) 0) eqn:E; [|reflexivity].
    apply Qeq_bool_iff in E. exfalso. now apply (inject_Z_nonzero G HG).
Qed.



(* ================================================================== *)
(** * Further properties of the analysis functions *)

Lemma fgt_float_lt (x y : float) : fgt x y = true <-> float_lt y x.
Proof.
  destruct x as [|a], y as [|b]; cbn; try (split; [discriminate | contradiction]).
  apply Qltb_lt.
Qed.

Lemma list_last_cases {A : Type} (l : list A) :
  l = [] \/ exists l' a, l = l' ++ [a].
Proof.
  destruct l as [|x l] using rev_ind; [now left | right; eauto].
Qed.

(** X1.  determine_trend raises nothing.  An empty series on either side gives
    no trend at all; otherwise the local trend is long exactly when the last
    hourly close is strictly greater than the last daily close (short also
    when one of them is NaN), and the global trend is missing exactly when
    there are fewer than six daily bars. *)
Theorem determine_trend_total (df_1h df_1d : DataFrame) :
  exists local_trend global_trend,
    determine_trend df_1h df_1d = Ok (local_trend, global_trend)
    /\ (df_1h = [] \/ df_1d = [] -> local_trend = None /\ global_trend = None)
    /\ forall h1 b1 d1 b2, df_1h = h1 ++ [b1] -> df_1d = d1 ++ [b2] ->
         (local_trend = Some long <-> float_lt (close b2) (close b1))
         /\ (local_trend = Some short <-> ~ float_lt (close b2) (close b1))
         /\ (global_trend = None <-> (length df_1d < 6)%nat).
Proof.
  destruct (list_last_cases df_1h) as [-> | (h1 & b1 & ->)].
  { exists None, None. split; [reflexivity|]. split; [auto|].
    intros h1 b1 d1 b2 E. destruct h1; discriminate. }
  destruct (list_last_cases df_1d) as [-> | (d1 & b2 & ->)].
  { exists None, None. split; [destruct h1; reflexivity|]. split; [auto|].
    intros h1' b1' d1 b2 _ E. destruct d1; discriminate. }
  assert (Hne1 : h1 ++ [b1] <> []) by (destruct h1; discriminate).
  assert (Hparts : forall h1' b1' d1' b2',
             h1 ++ [b1] = h1' ++ [b1'] -> d1 ++ [b2] = d1' ++ [b2'] ->
             b1' = b1 /\ b2' = b2).
  { intros h1' b1' d1' b2' E1 E2.
    apply app_inj_tail in E1, E2. destruct E1, E2. auto. }
  destruct (Nat.lt_ge_cases (length (d1 ++ [b2])) 6) as [Hlt | Hge].
  - destruct (determine_trend_global_none (h1 ++ [b1]) (d1 ++ [b2]) Hne1 Hlt)
      as [lt Hrun].
    assert (Hlocal : lt = Some (if fgt (close b1) (close b2) then long else short)).
    { revert Hrun. unfold determine_trend.
      replace (empty (h1 ++ [b1])) with false by (destruct h1; reflexivity).
      replace (empty (d1 ++ [b2])) with false by (destruct d1; reflexivity).
      cbn [orb]. unfold col. rewrite !map_app. cbn [map]. rewrite !iloc_last.
      cbn [bind result_Monad].
      replace (6 <=? length (d1 ++ [b2]))%nat with false
        by (symmetry; apply Nat.leb_gt; lia).
      congruence. }
    exists lt, None. split; [exact Hrun|].
    split; [intros [E | E]; [destruct h1 | destruct d1]; discriminate|].
    intros h1' b1' d1' b2' E1 E2. destruct (Hparts _ _ _ _ E1 E2) as [-> ->].
    rewrite Hlocal, <- fgt_float_lt.
    destruct (fgt (close b1) (close b2)); repeat split; intros; try congruence; lia.
  - destruct (nth_error (col close (d1 ++ [b2])) (length (d1 ++ [b2]) - 1)) as [a|] eqn:Ea;
      [|apply nth_error_None in Ea; unfold col in Ea; rewrite length_map in Ea; lia].
    destruct (nth_error (col close (d1 ++ [b2])) (length (d1 ++ [b2]) - 5)) as [b|] eqn:Eb;
      [|apply nth_error_None in Eb; unfold col in Eb; rewrite length_map in Eb; lia].
    destruct (determine_trend_global_code (h1 ++ [b1]) (d1 ++ [b2]) a b Hne1 Hge Ea Eb)
      as [lt Hrun].
    assert (Hlocal : lt = if fgt (close b1) (close b2) then long else short).
    { revert Hrun. unfold determine_trend.
      replace (empty (h1 ++ [b1])) with false by (destruct h1; reflexivity).
      replace (empty (d1 ++ [b2])) with false by (destruct d1; reflexivity).
      cbn [orb]. unfold col. rewrite !map_app. cbn [map]. rewrite !iloc_last.
      cbn [bind result_Monad].
      destruct (if (6 <=? length (d1 ++ [b2]))%nat then _ else _); [|discriminate].
      congruence. }
    eexists. eexists. split; [exact Hrun|].
    split; [intros [E | E]; [destruct h1 | destruct d1]; discriminate|].
    intros h1' b1' d1' b2' E1 E2. destruct (Hparts _ _ _ _ E1 E2) as [-> ->].
    rewrite Hlocal, <- fgt_float_lt.
    destruct (fgt (close b1) (close b2)); repeat split; intros; try congruence; try lia;
      discriminate.
Qed.

(** find_key_levels as one pass over the interior positions, for any frame
    (NaN included). *)
Lemma find_key_levels_unfold (d : DataFrame) :
  find_key_levels d = Ok (flat_map (levels_at d) (seq 1 (length d - 2))).
Proof.
  unfold find_key_levels.
  destruct d as [|b0 d0]; [reflexivity|].
  cbn [empty]. remember (b0 :: d0) as d eqn:Ed.
  unfold rolling. cbn [Nat.ltb Nat.leb bind result_Monad].
  rewrite range_interior, for_each_map.
  apply (for_each_app (seq 1 (length d - 2)) _ (levels_at d)).
  intros i acc Hi. apply in_seq in Hi.
  assert (Hlt : (i < length d)%nat) by lia.
  destruct (nth_error d i) as [b|] eqn:Eb; [|apply nth_error_None in Eb; lia].
  assert (Eh : nth_error (rolling_max (mkRolling (col high d) 20 1)) i
               = Some (reduce_skipna Qmaximum 1 (window_at 20 i (col high d)))).
  { unfold rolling_max. rewrite nth_error_rolling_apply; [reflexivity|].
    cbn [roll_data]. unfold col. now rewrite length_map. }
  assert (El : nth_error (rolling_min (mkRolling (col low d) 20 1)) i
               = Some (reduce_skipna Qminimum 1 (window_at 20 i (col low d)))).
  { unfold rolling_min. rewrite nth_error_rolling_apply; [reflexivity|].
    cbn [roll_data]. unfold col. now rewrite length_map. }
  unfold levels_at. rewrite Eb, Eh, El.
  rewrite (iloc_nat (col high d) i (high b)) by (unfold col; now rewrite nth_error_map, Eb).
  rewrite (iloc_nat (col low d) i (low b)) by (unfold col; now rewrite nth_error_map, Eb).
  rewrite (iloc_nat (col timestamp d) i (timestamp b))
    by (unfold col; now rewrite nth_error_map, Eb).
  rewrite (iloc_nat _ i _ Eh), (iloc_nat _ i _ El).
  cbn [bind result_Monad].
  destruct (feq (high b) _), (feq (low b) _);
    cbn [bind result_Monad app]; rewrite <- ?app_assoc, ?app_nil_r; reflexivity.
Qed.

Lemma feq_true_Num (x y : float) : feq x y = true -> exists q, x = Num q.
Proof. destruct x as [|q]; [discriminate | eauto]. Qed.

Lemma length_flat_map_le {A B : Type} (f : A -> list B) (l : list A) (k : nat) :
  (forall x, In x l -> (length (f x) <= k)%nat) ->
  (length (flat_map f l) <= k * length l)%nat.
Proof.
  induction l as [|x l IH]; intro H; cbn [flat_map length]; [lia|].
  rewrite length_app.
  assert (length (f x) <= k)%nat by (apply H; now left).
  assert (length (flat_map f l) <= k * length l)%nat by (apply IH; intros y Hy; apply H; now right).
  lia.
Qed.

(** X2.  find_key_levels raises nothing, on any frame.  Every level it returns
    comes from a bar that is neither the first nor the last: its price is
    that bar's high (resistance) or low (support), its timestamp is the
    bar's, and the price is a number, never NaN.  There are at most two
    levels per interior bar. *)
Theorem find_key_levels_sound (d : DataFrame) :
  exists levels,
    find_key_levels d = Ok levels
    /\ (length levels <= 2 * (length d - 2))%nat
    /\ forall kind price t, In (kind, price, t) levels ->
         exists i b q,
           (1 <= i <= length d - 2)%nat
           /\ nth_error d i = Some b
           /\ t = timestamp b
           /\ price = Num q
           /\ (kind = resistance /\ high b = Num q \/ kind = support /\ low b = Num q).
Proof.
  exists (flat_map (levels_at d) (seq 1 (length d - 2))).
  split; [apply find_key_levels_unfold|]. split.
  - eapply Nat.le_trans; [apply (length_flat_map_le _ _ 2) | rewrite length_seq; lia].
    intros i _. unfold levels_at.
    destruct (nth_error d i); [|simpl; lia].
    destruct (nth_error (rolling_max _) i); [|simpl; lia].
    destruct (nth_error (rolling_min _) i); [|simpl; lia].
    rewrite length_app. destruct (feq _ _), (feq _ _); simpl; lia.
  - intros kind price t Hin. apply in_flat_map in Hin. destruct Hin as (i & Hi & Hin).
    apply in_seq in Hi. unfold levels_at in Hin.
    destruct (nth_error d i) as [b|] eqn:Eb; [|now simpl in Hin].
    destruct (nth_error (rolling_max _) i) as [hmax|]; [|now simpl in Hin].
    destruct (nth_error (rolling_min _) i) as [lmin|]; [|now simpl in Hin].
    apply in_app_or in Hin. destruct Hin as [Hin | Hin].
    + destruct (feq (high b) hmax) eqn:E; [|now simpl in Hin].
      destruct Hin as [[= <- <- <-] | []].
      destruct (feq_true_Num _ _ E) as [q Hq].
      exists i, b, q. repeat split; auto; lia.
    + destruct (feq (low b) lmin) eqn:E; [|now simpl in Hin].
      destruct Hin as [[= <- <- <-] | []].
      destruct (feq_true_Num _ _ E) as [q Hq].
      exists i, b, q. repeat split; auto; lia.
Qed.

Section ExtremeMember.

Variable R : Q -> Q -> Prop.

Hypothesis R_refl : forall x y, x == y -> R x y.
Hypothesis R_trans : forall x y z, R x y -> R y z -> R x z.
Hypothesis R_antisym : forall x y, R x y -> R y x -> x == y.

(** A member of a list equals its extreme exactly when it bounds the list. *)
Lemma extreme_member_iff (l : list Q) (m x : Q) :
  extreme_of R l m -> In x l -> (x == m <-> forall y, In y l -> R y x).
Proof.
  intros [Hb (z & Hz & Hm)] Hx. split.
  - intros E y Hy. eapply R_trans; [apply Hb; exact Hy|]. apply R_refl. now symmetry.
  - intro Hall. apply R_antisym; [now apply Hb|].
    eapply R_trans; [apply R_refl; exact Hm | now apply Hall].
Qed.

End ExtremeMember.

Lemma Qmaximum_extreme (q : Q) (qs : list Q) : extreme_of Qle (q :: qs) (Qmaximum q qs).
Proof.
  apply fold_left_extreme.
  - intros a b E. rewrite E. apply Qle_refl.
  - apply Qle_trans.
  - apply Q.le_max_l.
  - apply Q.le_max_r.
  - intros a b. destruct (Q.max_spec a b) as [[_ E] | [_ E]]; auto.
Qed.

Lemma Qminimum_extreme (q : Q) (qs : list Q) :
  extreme_of (fun a b => b <= a) (q :: qs) (Qminimum q qs).
Proof.
  apply fold_left_extreme.
  - intros a b E. rewrite E. apply Qle_refl.
  - intros a b c Hab Hbc. eapply Qle_trans; eauto.
  - apply Q.le_min_l.
  - apply Q.le_min_r.
  - intros a b. destruct (Q.min_spec a b) as [[_ E] | [_ E]]; auto.
Qed.

(** Membership in the trailing window of [W] positions ending at [i]. *)
Lemma in_window_seq (X : nat -> Q) (W i : nat) (x : Q) :
  (0 < W)%nat ->
  (In x (map X (seq (i + 1 - Nat.min W (i + 1)) (Nat.min W (i + 1))))
   <-> exists j, (i + 1 - W <= j <= i)%nat /\ x = X j).
Proof.
  intro HW. rewrite in_map_iff. split.
  - intros (j & <- & Hj). apply in_seq in Hj. exists j. split; [lia | reflexivity].
  - intros (j & Hj & ->). exists j. split; [reflexivity|]. apply in_seq. lia.
Qed.

(** The comparisons of the loop on a series without NaN, as statements
    about the window. *)
Lemma rolling_max_test (X : nat -> Q) (n i : nat) :
  (i < n)%nat ->
  exists hmax,
    nth_error (rolling_max (mkRolling (map Num (map X (seq 0 n))) 20 1)) i = Some (Num hmax)
    /\ (Qeq_bool (X i) hmax = true <-> forall j, (i + 1 - 20 <= j <= i)%nat -> X j <= X i).
Proof.
  intro Hi.
  assert (Hi' : (i < length (map X (seq 0 n)))%nat) by (now rewrite length_map, length_seq).
  destruct (rolling_apply_defined Qmaximum (map X (seq 0 n)) 20 i) as (q & qs & Hwin & Hnth);
    [lia | exact Hi' |].
  rewrite (window_of_seq X n 20 i Hi) in Hwin.
  exists (Qmaximum q qs). split; [exact Hnth|].
  rewrite Qeq_bool_iff.
  rewrite (extreme_member_iff Qle) with (l := q :: qs).
  - rewrite <- Hwin. split.
    + intros Hall j Hj. apply Hall. apply in_window_seq; [lia | eauto].
    + intros Hall y Hy. apply in_window_seq in Hy; [|lia].
      destruct Hy as (j & Hj & ->). now apply Hall.
  - intros a b E. rewrite E. apply Qle_refl.
  - apply Qle_trans.
  - apply Qle_antisym.
  - apply Qmaximum_extreme.
  - rewrite <- Hwin. apply in_window_seq; [lia|]. exists i. split; [lia | reflexivity].
Qed.

Lemma rolling_min_test (X : nat -> Q) (n i : nat) :
  (i < n)%nat ->
  exists lmin,
    nth_error (rolling_min (mkRolling (map Num (map X (seq 0 n))) 20 1)) i = Some (Num lmin)
    /\ (Qeq_bool (X i) lmin = true <-> forall j, (i + 1 - 20 <= j <= i)%nat -> X i <= X j).
Proof.
  intro Hi.
  assert (Hi' : (i < length (map X (seq 0 n)))%nat) by (now rewrite length_map, length_seq).
  destruct (rolling_apply_defined Qminimum (map X (seq 0 n)) 20 i) as (q & qs & Hwin & Hnth);
    [lia | exact Hi' |].
  rewrite (window_of_seq X n 20 i Hi) in Hwin.
  exists (Qminimum q qs). split; [exact Hnth|].
  rewrite Qeq_bool_iff.
  rewrite (extreme_member_iff (fun a b => b <= a)) with (l := q :: qs).
  - rewrite <- Hwin. split.
    + intros Hall j Hj. apply Hall. apply in_window_seq; [lia | eauto].
    + intros Hall y Hy. apply in_window_seq in Hy; [|lia].
      destruct Hy as (j & Hj & ->). now apply Hall.
  - intros a b E. rewrite E. apply Qle_refl.
  - intros a b c Hab Hbc. eapply Qle_trans; eauto.
  - intros a b Hab Hba. now apply Qle_antisym.
  - apply Qminimum_extreme.
  - rewrite <- Hwin. apply in_window_seq; [lia|]. exists i. split; [lia | reflexivity].
Qed.

(** X3.  On a series without NaN, given by its columns [T], [H] and [L]:
    find_key_levels reports a resistance at an interior bar [i] exactly
    when no bar of the 20 ending at [i] has a higher high, and a support
    exactly when none has a lower low; it reports nothing else. *)
Theorem find_key_levels_window_extremes (d : DataFrame) (T : nat -> Z) (H L : nat -> Q) :
  (forall i b, nth_error d i = Some b ->
               timestamp b = T i /\ high b = Num (H i) /\ low b = Num (L i)) ->
  exists levels,
    find_key_levels d = Ok levels
    /\ forall level, In level levels <->
         exists i, (1 <= i <= length d - 2)%nat
           /\ (level = (resistance, Num (H i), T i)
               /\ (forall j, (i + 1 - 20 <= j <= i)%nat -> H j <= H i)
               \/ level = (support, Num (L i), T i)
                  /\ (forall j, (i + 1 - 20 <= j <= i)%nat -> L i <= L j)).
Proof.
  intro Hd.
  exists (flat_map (levels_at d) (seq 1 (length d - 2))).
  split; [apply find_key_levels_unfold|].
  assert (Hat : forall i, (1 <= i <= length d - 2)%nat ->
            forall level, In level (levels_at d i) <->
              (level = (resistance, Num (H i), T i)
               /\ (forall j, (i + 1 - 20 <= j <= i)%nat -> H j <= H i)
               \/ level = (support, Num (L i), T i)
                  /\ (forall j, (i + 1 - 20 <= j <= i)%nat -> L i <= L j))).
  { intros i Hi level.
    assert (Hlt : (i < length d)%nat) by lia.
    destruct (nth_error d i) as [b|] eqn:Eb; [|apply nth_error_None in Eb; lia].
    destruct (Hd i b Eb) as (Et & Eh & El).
    destruct (rolling_max_test H (length d) i Hlt) as (hmax & Hhmax & Hmax).
    destruct (rolling_min_test L (length d) i Hlt) as (lmin & Hlmin & Hmin).
    unfold levels_at.
    rewrite (col_of_function high (fun i => Num (H i)) d) by (intros k bk Hk; apply (Hd k bk Hk)).
    rewrite (col_of_function low (fun i => Num (L i)) d) by (intros k bk Hk; apply (Hd k bk Hk)).
    rewrite <- (map_map H Num), <- (map_map L Num).
    rewrite Eb, Hhmax, Hlmin, Et, Eh, El. cbn [feq].
    rewrite in_app_iff, <- Hmax, <- Hmin.
    destruct (Qeq_bool (H i) hmax), (Qeq_bool (L i) lmin); cbn [In];
      intuition (try discriminate; auto). }
  intro level. rewrite in_flat_map. split.
  - intros (i & Hi & Hin). apply in_seq in Hi.
    exists i. split; [lia|]. apply Hat; [lia | exact Hin].
  - intros (i & Hi & Hlev). exists i. split; [apply in_seq; lia|].
    apply Hat; assumption.
Qed.

Lemma find_key_levels_window_extremes_witness :
  let d := [candle 1 10 12 9 11 1; candle 2 11 15 10 14 1; candle 3 14 14 8 9 1] in
  let T := fun i => nth i [1; 2; 3]%Z 0%Z in
  let H := fun i => nth i [12; 15; 14] 0 in
  let L := fun i => nth i [9; 10; 8] 0 in
  exists levels,
    find_key_levels d = Ok levels
    /\ forall level, In level levels <->
         exists i, (1 <= i <= length d - 2)%nat
           /\ (level = (resistance, Num (H i), T i)
               /\ (forall j, (i + 1 - 20 <= j <= i)%nat -> H j <= H i)
               \/ level = (support, Num (L i), T i)
                  /\ (forall j, (i + 1 - 20 <= j <= i)%nat -> L i <= L j)).
Proof.
  intros d T H L.
  apply (find_key_levels_window_extremes d T H L).
  intros i b Hb.
  destruct i as [|[|[|i]]]; simpl in Hb;
    [| | |destruct i; discriminate];
    injection Hb as <-; repeat split; reflexivity.
Defined.

(* ================================================================== *)
(** ** check_patterns, further *)

Lemma list_last_two_cases {A : Type} (l : list A) :
  (length l < 2)%nat \/ exists rest p q, l = rest ++ [p; q].
Proof.
  destruct (list_last_cases l) as [-> | (l1 & q & ->)]; [left; simpl; lia|].
  destruct (list_last_cases l1) as [-> | (rest & p & ->)]; [left; simpl; lia|].
  right. exists rest, p, q. now rewrite <- app_assoc.
Qed.

(** X4.  check_patterns looks at the last two bars only, and treats the levels
    one after the other: it raises nothing, the signals of a concatenation
    of level lists are the signals of the parts in the same order, and the
    bars before the last two do not matter. *)
Theorem check_patterns_compose (df : DataFrame) (levels1 levels2 : list KeyLevel) :
  exists signals1 signals2,
    check_patterns df levels1 = Ok signals1
    /\ check_patterns df levels2 = Ok signals2
    /\ check_patterns df (levels1 ++ levels2) = Ok (signals1 ++ signals2)
    /\ forall rest prev_bar last_bar,
         df = rest ++ [prev_bar; last_bar] ->
         check_patterns [prev_bar; last_bar] levels1 = Ok signals1.
Proof.
  destruct (list_last_two_cases df) as [Hshort | (rest & p & q & ->)].
  - exists [], []. rewrite !check_patterns_short by exact Hshort.
    repeat split. intros rest p q ->. rewrite length_app in Hshort. simpl in Hshort. lia.
  - exists (fold_left (check_level p q) levels1 []), (fold_left (check_level p q) levels2 []).
    rewrite !check_patterns_last_two.
    split; [reflexivity|]. split; [reflexivity|]. split.
    + rewrite fold_left_app.
      rewrite (fold_check_level p q levels2 (fold_left (check_level p q) levels1 [])).
      rewrite (fold_check_level p q levels2 []). reflexivity.
    + intros rest' p' q' E.
      assert (E' : (rest ++ [p]) ++ [q] = (rest' ++ [p']) ++ [q'])
        by (now rewrite <- !app_assoc).
      apply app_inj_tail in E'. destruct E' as [E' <-].
      apply app_inj_tail in E'. destruct E' as [_ <-].
      apply (check_patterns_last_two [] p q).
Qed.

Lemma flt_asym (x y : float) : flt x y = true -> flt y x = false.
Proof.
  destruct x as [|a], y as [|b]; cbn; try discriminate.
  intro H. apply Qltb_lt in H. apply Qltb_ge. lra.
Qed.

Lemma flt_true_Num_r (x y : float) : flt x y = true -> exists q, y = Num q.
Proof. destruct x as [|a], y as [|q]; try discriminate. eauto. Qed.

Lemma flt_true_Num_l (x y : float) : flt x y = true -> exists q, x = Num q.
Proof. destruct x as [|q], y as [|b]; try discriminate. eauto. Qed.

(** What one level can contribute. *)
Lemma check_level_cases (prev_bar last_bar : Bar) (kind : LevelType) (price : float) (t : Z) :
  let out := check_level prev_bar last_bar [] (kind, price, t) in
  (out = []
   \/ out = [(false_breakout, price, timestamp last_bar)]
   \/ (out = [(breakout, price, timestamp last_bar)] /\ kind = resistance)
   \/ (out = [(bounce, price, timestamp last_bar)] /\ kind = support)
   \/ (out = [(false_breakout, price, timestamp last_bar);
              (bounce, price, timestamp last_bar)] /\ kind = support))
  /\ (out <> [] -> exists q, price = Num q).
Proof.
  cbv zeta. unfold check_level, fgt.
  destruct kind; cbn [LevelType_eqb andb orb];
    rewrite ?andb_true_r, ?andb_false_r, ?orb_false_r; cbn [andb orb app].
  - destruct (flt price (high prev_bar)) eqn:E0, (flt (close last_bar) price) eqn:E1,
      (flt price (close last_bar)) eqn:E2, (flt (close prev_bar) price) eqn:E3;
      cbn [andb orb app];
      try (rewrite (flt_asym _ _ E1) in E2; discriminate);
      (split; [auto 8 | intro Hne; try congruence;
                        eauto using flt_true_Num_r, flt_true_Num_l]).
  - destruct (flt (low prev_bar) price) eqn:E0, (flt price (close last_bar)) eqn:E2;
      cbn [andb orb app];
      destruct (negb (isnan match atr last_bar with Some a => a | None => of_int 0 end)
                && flt (fabs (fsub (low last_bar) price))
                       (fmul match atr last_bar with Some a => a | None => of_int 0 end c0_1));
      cbn [andb orb app];
      (split; [auto 8 | intro Hne; try congruence;
                        eauto using flt_true_Num_r, flt_true_Num_l]).
Qed.

(** X5.  For one level, check_patterns emits at most two signals and never the
    same pattern twice; a breakout is always alone (a resistance level
    cannot give a breakout and a false_breakout together), and a bounce
    comes only from a support level.  Every signal carries the level price,
    which is then a number, and the timestamp of the last bar. *)
Theorem check_patterns_one_level (rest : DataFrame) (prev_bar last_bar : Bar)
        (kind : LevelType) (price : float) (t : Z) :
  exists signals,
    check_patterns (rest ++ [prev_bar; last_bar]) [(kind, price, t)] = Ok signals
    /\ (length signals <= 2)%nat
    /\ NoDup (map pattern_of signals)
    /\ (In breakout (map pattern_of signals) -> length signals = 1%nat /\ kind = resistance)
    /\ (In bounce (map pattern_of signals) -> kind = support)
    /\ forall s, In s signals ->
         snd s = timestamp last_bar /\ snd (fst s) = price /\ exists q, price = Num q.
Proof.
  exists (check_level prev_bar last_bar [] (kind, price, t)).
  split; [apply check_patterns_last_two|].
  destruct (check_level_cases prev_bar last_bar kind price t) as [Hcases Hnum].
  cbv zeta in Hcases, Hnum.
  destruct Hcases as [E | [E | [[E Hk] | [[E Hk] | [E Hk]]]]]; rewrite E in *;
    (split; [cbn; lia|]);
    (split; [repeat constructor; cbn; intuition discriminate|]);
    (split; [cbn; intuition (try discriminate; auto)|]);
    (split; [cbn; intuition (try discriminate; auto)|]);
    intros s Hin; cbn in Hin;
    repeat (destruct Hin as [<- | Hin]); try contradiction;
    (split; [reflexivity|]); (split; [reflexivity|]); apply Hnum; discriminate.
Qed.

(* ================================================================== *)
(** ** find_round_levels and get_reserve_move, further *)




(** X8.  get_reserve_move raises nothing.  Its guard looks at the ATR only: when
    the ATR is a number but one of the two last closes is NaN, the answer
    is "normal", not "no data". *)
Theorem get_reserve_move_nan_close (df_1h df_1d : DataFrame) (atr : option float) :
  exists status,
    get_reserve_move df_1h df_1d atr = Ok status
    /\ forall h1 b1 d1 b2 t,
         df_1h = h1 ++ [b1] -> df_1d = d1 ++ [b2] -> atr = Some (Num t) ->
         close b1 = NaN \/ close b2 = NaN ->
         status = Normal.
Proof.
  destruct (list_last_cases df_1h) as [-> | (h1 & b1 & ->)].
  { exists NoData. split; [reflexivity|]. intros h1 b1 d1 b2 t E. destruct h1; discriminate. }
  destruct (list_last_cases df_1d) as [-> | (d1 & b2 & ->)].
  { exists NoData. split.
    - unfold get_reserve_move. cbn [empty]. rewrite orb_true_r. reflexivity.
    - intros h1' b1' d1 b2 t _ E. destruct d1; discriminate. }
  destruct atr as [[|t]|].
  - exists NoData. split.
    + unfold get_reserve_move. cbn [isnan]. rewrite orb_true_r. reflexivity.
    + discriminate.
  - eexists. split; [apply get_reserve_move_defined|].
    intros h1' b1' d1' b2' t' E1 E2 _ Hnan.
    apply app_inj_tail in E1, E2. destruct E1 as [_ <-], E2 as [_ <-].
    destruct Hnan as [-> | ->]; [reflexivity|].
    destruct (close b1); reflexivity.
  - exists NoData. split.
    + unfold get_reserve_move. rewrite orb_true_r. reflexivity.
    + discriminate.
Qed.

Lemma get_reserve_move_nan_close_witness :
  exists status,
    get_reserve_move [candle 1 100 104 98 103 1]
                     [mkBar 1 (Num 95) (Num 101) (Num 94) NaN (Num 1) None None None None None]
                     (Some (Num 4))
    = Ok status
    /\ status = Normal.
Proof.
  destruct (get_reserve_move_nan_close
              [candle 1 100 104 98 103 1]
              [mkBar 1 (Num 95) (Num 101) (Num 94) NaN (Num 1) None None None None None]
              (Some (Num 4))) as (status & Hrun & Hnan).
  exists status. split; [exact Hrun|].
  apply (Hnan [] (candle 1 100 104 98 103 1) []
              (mkBar 1 (Num 95) (Num 101) (Num 94) NaN (Num 1) None None None None None) 4);
    try reflexivity.
  right. reflexivity.
Defined.

(* ================================================================== *)
(** ** calculate_atr, further *)

(** The values written by calculate_atr on a series without NaN, at the
    level of frames. *)
Lemma atr_frame_values (d : DataFrame) (N : nat) (H L C : nat -> Q) (i : nat) (b' : Bar) :
  (0 < N)%nat ->
  (forall i b, nth_error d i = Some b ->
               high b = Num (H i) /\ low b = Num (L i) /\ close b = Num (C i)) ->
  nth_error (atr_frame d N) i = Some b' ->
  tr b' = Some (Num (spec_true_range H L C i))
  /\ atr b' = Some (Num (spec_atr N (spec_true_range H L C) i)).
Proof.
  intros HN Hd Hb'.
  assert (Hi : (i < length d)%nat).
  { rewrite <- (length_atr_frame d N). apply nth_error_Some. congruence. }
  destruct (atr_frame_row d N i b' Hb') as (t & a & -> & -> & Hti & Hai).
  rewrite (true_ranges_spec d H L C Hd) in Hti, Hai.
  remember (spec_true_range H L C) as TR eqn:ETR.
  split.
  - rewrite !nth_error_map, nth_error_seq in Hti.
    replace (i <? length d)%nat with true in Hti by (symmetry; apply Nat.ltb_lt; lia).
    cbn [option_map Nat.add] in Hti. congruence.
  - assert (Hi' : (i < length (map TR (seq 0 (length d))))%nat)
      by (rewrite length_map, length_seq; exact Hi).
    destruct (rolling_mean_defined (map TR (seq 0 (length d))) N i HN Hi') as [Hlen Hm].
    cbv zeta in Hlen, Hm.
    rewrite Hm in Hai. rewrite Hlen in Hai.
    rewrite (window_of_seq TR (length d) N i Hi) in Hai.
    injection Hai as <-. reflexivity.
Qed.

Lemma Qsum_zero (l : list Q) : (forall x, In x l -> x == 0) -> Qsum l == 0.
Proof.
  induction l as [|x l IH]; intro H; cbn [Qsum fold_right]; [reflexivity|].
  fold (Qsum l). rewrite (H x (or_introl eq_refl)), IH; [ring|].
  intros y Hy. apply H. now right.
Qed.

(** X9.  On a series whose high, low and close all equal one price, every true
    range and every ATR value is zero. *)
Theorem calculate_atr_constant_price (h : heap) (r : ref) (d : DataFrame) (N : nat) (c : Q) :
  nth_error h r = Some d ->
  (0 < N)%nat ->
  (forall b, In b d -> high b = Num c /\ low b = Num c /\ close b = Num c) ->
  exists r' h' d',
    calculate_atr r N h = (Ok r', h')
    /\ nth_error h' r' = Some d'
    /\ length d' = length d
    /\ forall b', In b' d' ->
         exists t a, tr b' = Some (Num t) /\ t == 0 /\ atr b' = Some (Num a) /\ a == 0.
Proof.
  intros Hr HN Hc. rewrite (calculate_atr_run h r d N Hr).
  destruct d as [|b0 d0].
  - exists r, h, []. repeat split; auto. intros b' [].
  - cbv iota. remember (b0 :: d0) as d eqn:Ed.
    replace (N =? 0)%nat with false by (symmetry; apply Nat.eqb_neq; lia).
    exists (length h), (h ++ [atr_frame d N]), (atr_frame d N).
    split; [reflexivity|]. split; [apply nth_error_app_last|].
    split; [apply length_atr_frame|].
    intros b' Hb'. apply In_nth_error in Hb'. destruct Hb' as [i Hi].
    destruct (atr_frame_values d N (fun _ => c) (fun _ => c) (fun _ => c) i b' HN) as [Ht Ha].
    + intros k b Hb. apply Hc. eapply nth_error_In; eauto.
    + exact Hi.
    + assert (Hzero : forall k, spec_true_range (fun _ => c) (fun _ => c) (fun _ => c) k == 0).
      { intros [|k]; cbn [spec_true_range].
        - ring.
        - assert (E : c - c == 0) by ring.
          rewrite E. change (Qabs 0) with 0.
          rewrite !Q.max_id. reflexivity. }
      eexists. eexists. split; [exact Ht|]. split; [apply Hzero|]. split; [exact Ha|].
      unfold spec_atr. cbv zeta.
      rewrite Qsum_zero.
      * unfold Qdiv. ring.
      * intros x Hx. apply in_map_iff in Hx. destruct Hx as (k & <- & _). apply Hzero.
Qed.

Lemma calculate_atr_constant_price_witness :
  exists r' h' d',
    calculate_atr 0%nat ATR_PERIOD [[candle 1 7 7 7 7 1; candle 2 7 7 7 7 2]] = (Ok r', h')
    /\ nth_error h' r' = Some d'
    /\ length d' = 2%nat
    /\ forall b', In b' d' ->
         exists t a, tr b' = Some (Num t) /\ t == 0 /\ atr b' = Some (Num a) /\ a == 0.
Proof.
  apply (calculate_atr_constant_price
           [[candle 1 7 7 7 7 1; candle 2 7 7 7 7 2]] 0%nat
           [candle 1 7 7 7 7 1; candle 2 7 7 7 7 2] ATR_PERIOD 7).
  - reflexivity.
  - unfold ATR_PERIOD. lia.
  - intros b [<- | [<- | []]]; repeat split; reflexivity.
Defined.

(** Rows of the output frame, and the series of a frame that already has
    derived columns. *)
Lemma nth_error_atr_frame (d : DataFrame) (N i : nat) :
  nth_error (atr_frame d N) i
  = match nth_error d i,
          nth_error (high_low_series d) i,
          nth_error (high_close_series d) i,
          nth_error (low_close_series d) i,
          nth_error (true_ranges d) i,
          nth_error (rolling_mean (mkRolling (true_ranges d) N 1)) i with
    | Some b, Some v1, Some v2, Some v3, Some v4, Some v5 =>
        Some (with_derived b v1 v2 v3 v4 v5)
    | _, _, _, _, _, _ => None
    end.
Proof.
  unfold atr_frame, tr_frame, frame_lc, frame_hc, frame_hl.
  rewrite !nth_error_zip_with.
  destruct (nth_error d i); [|reflexivity].
  destruct (nth_error (high_low_series d) i); [|reflexivity].
  destruct (nth_error (high_close_series d) i); [|reflexivity].
  destruct (nth_error (low_close_series d) i); [|reflexivity].
  destruct (nth_error (true_ranges d) i); [|reflexivity].
  destruct (nth_error (rolling_mean _) i); reflexivity.
Qed.

Lemma series_of_atr_frame (d : DataFrame) (N : nat) :
  high_low_series (atr_frame d N) = high_low_series d
  /\ high_close_series (atr_frame d N) = high_close_series d
  /\ low_close_series (atr_frame d N) = low_close_series d
  /\ true_ranges (atr_frame d N) = true_ranges d.
Proof.
  unfold true_ranges, high_low_series, high_close_series, low_close_series.
  rewrite !col_atr_frame by reflexivity. auto.
Qed.

Lemma atr_frame_idempotent (d : DataFrame) (N : nat) :
  atr_frame (atr_frame d N) N = atr_frame d N.
Proof.
  apply nth_error_ext. intro i.
  rewrite (nth_error_atr_frame (atr_frame d N) N i).
  destruct (series_of_atr_frame d N) as (-> & -> & -> & ->).
  rewrite (nth_error_atr_frame d N i).
  destruct (nth_error d i); [|reflexivity].
  destruct (nth_error (high_low_series d) i); [|reflexivity].
  destruct (nth_error (high_close_series d) i); [|reflexivity].
  destruct (nth_error (low_close_series d) i); [|reflexivity].
  destruct (nth_error (true_ranges d) i); [|reflexivity].
  destruct (nth_error (rolling_mean _) i); reflexivity.
Qed.

(** X10.  calculate_atr applied to its own result gives a frame equal to that
    result: the derived columns are recomputed from the source columns,
    which the first call left as they were. *)
Theorem calculate_atr_idempotent (h : heap) (r : ref) (d : DataFrame) (N : nat) :
  nth_error h r = Some d ->
  (0 < N)%nat ->
  exists r1 h1 d1 r2 h2,
    calculate_atr r N h = (Ok r1, h1)
    /\ nth_error h1 r1 = Some d1
    /\ calculate_atr r1 N h1 = (Ok r2, h2)
    /\ nth_error h2 r2 = Some d1
    /\ nth_error h2 r1 = Some d1.
Proof.
  intros Hr HN.
  destruct d as [|b0 d0].
  - exists r, h, [], r, h.
    rewrite (calculate_atr_run h r [] N Hr). auto.
  - remember (b0 :: d0) as d eqn:Ed.
    assert (Hne : (N =? 0)%nat = false) by (apply Nat.eqb_neq; lia).
    assert (H1 : nth_error (h ++ [atr_frame d N]) (length h) = Some (atr_frame d N))
      by apply nth_error_app_last.
    exists (length h), (h ++ [atr_frame d N]), (atr_frame d N),
      (length (h ++ [atr_frame d N])),
      ((h ++ [atr_frame d N]) ++ [atr_frame d N]).
    split; [rewrite (calculate_atr_run h r d N Hr), Ed, Hne; reflexivity|].
    split; [exact H1|].
    split.
    + rewrite (calculate_atr_run _ _ _ N H1).
      destruct (atr_frame d N) as [|x xs] eqn:E.
      * apply (f_equal (@length Bar)) in E. rewrite length_atr_frame, Ed in E. discriminate.
      * rewrite Hne, <- E, atr_frame_idempotent. reflexivity.
    + split; [apply nth_error_app_last|].
      rewrite nth_error_app1; [exact H1|]. rewrite length_app. simpl. lia.
Qed.

Lemma calculate_atr_idempotent_witness :
  exists r1 h1 d1 r2 h2,
    calculate_atr 0%nat 2%nat [[candle 1 10 12 9 11 1; candle 2 11 15 10 14 1]] = (Ok r1, h1)
    /\ nth_error h1 r1 = Some d1
    /\ calculate_atr r1 2%nat h1 = (Ok r2, h2)
    /\ nth_error h2 r2 = Some d1
    /\ nth_error h2 r1 = Some d1.
Proof.
  apply (calculate_atr_idempotent
           [[candle 1 10 12 9 11 1; candle 2 11 15 10 14 1]] 0%nat
           [candle 1 10 12 9 11 1; candle 2 11 15 10 14 1] 2%nat).
  - reflexivity.
  - lia.
Defined.

(** X11.  A period of zero: an empty frame is still returned as it is, while on a
    non-empty frame pandas refuses the window and calculate_atr raises
    ValueError, every object that existed before the call being left as it
    was. *)
Theorem calculate_atr_zero_period (h : heap) (r : ref) (d : DataFrame) :
  nth_error h r = Some d ->
  (d = [] -> calculate_atr r 0 h = (Ok r, h))
  /\ (d <> [] ->
      exists h', calculate_atr r 0 h = (Raise ValueError, h')
                 /\ forall r0 d0, nth_error h r0 = Some d0 -> nth_error h' r0 = Some d0).
Proof.
  intro Hr. rewrite (calculate_atr_run h r d 0 Hr). split.
  - intros ->. reflexivity.
  - intro Hne. destruct d as [|b0 d0]; [congruence|].
    eexists. split; [reflexivity|].
    intros r0 d0' Hr0. rewrite nth_error_app1; [exact Hr0|].
    apply nth_error_Some. congruence.
Qed.

Lemma calculate_atr_zero_period_witness :
  exists h',
    calculate_atr 0%nat 0%nat [[candle 1 10 12 9 11 1]] = (Raise ValueError, h')
    /\ forall r0 d0,
         nth_error [[candle 1 10 12 9 11 1]] r0 = Some d0 -> nth_error h' r0 = Some d0.
Proof.
  apply (calculate_atr_zero_period [[candle 1 10 12 9 11 1]] 0%nat [candle 1 10 12 9 11 1]).
  - reflexivity.
  - discriminate.
Defined.

(* ================================================================== *)
(** * The archive *)

Lemma text_eqb_eq (a b : text) : text_eqb a b = true <-> a = b.
Proof.
  unfold text_eqb. destruct (list_eq_dec ascii_dec a b); split; congruence.
Qed.

Lemma text_eqb_refl (a : text) : text_eqb a a = true.
Proof. now apply text_eqb_eq. Qed.

Lemma text_eqb_neq (a b : text) : a <> b -> text_eqb a b = false.
Proof.
  intro H. destruct (text_eqb a b) eqn:E; [|reflexivity].
  apply text_eqb_eq in E. contradiction.
Qed.

Lemma fs_write_same (fs : filesystem) (path : text) (content : list Line) :
  fs_write fs path content path = Some content.
Proof. unfold fs_write. now rewrite text_eqb_refl. Qed.

Lemma fs_write_other (fs : filesystem) (path p : text) (content : list Line) :
  p <> path -> fs_write fs path content p = fs p.
Proof. intro H. unfold fs_write. now rewrite (text_eqb_neq p path H). Qed.

(** Path components. *)
Lemma startswith_sep_plain (s t : text) : plain s -> startswith_sep (s ++ t) = false.
Proof.
  intros [Hne Hall]. destruct s as [|c s]; [congruence|].
  cbn. apply Ascii.eqb_neq. now inversion Hall.
Qed.

Lemma endswith_sep_app_plain (p s : text) : plain s -> endswith_sep (p ++ s) = false.
Proof.
  intros [Hne Hall].
  destruct (exists_last Hne) as (s' & c & ->).
  unfold endswith_sep. rewrite !rev_app_distr. cbn.
  apply Ascii.eqb_neq. rewrite Forall_forall in Hall. apply Hall.
  apply in_or_app. right. now left.
Qed.

Lemma endswith_sep_suffix (p s : text) :
  s <> [] -> endswith_sep (p ++ s) = endswith_sep s.
Proof.
  intro Hne. destruct (exists_last Hne) as (s' & c & ->).
  unfold endswith_sep. rewrite app_assoc, !rev_app_distr. reflexivity.
Qed.

Lemma endswith_sep_cons (c : ascii) (s : text) :
  s <> [] -> endswith_sep (c :: s) = endswith_sep s.
Proof. intro Hne. apply (endswith_sep_suffix [c] s Hne). Qed.

Lemma join2_plain (path b t : text) :
  path <> [] -> endswith_sep path = false -> plain b ->
  join2 path (b ++ t) = path ++ sep :: b ++ t.
Proof.
  intros Hne Hend Hb. unfold join2.
  rewrite (startswith_sep_plain b t Hb), Hend.
  destruct path; [congruence | reflexivity].
Qed.

Lemma plain_app (s t : text) :
  plain s -> Forall (fun c => c <> sep) t -> plain (s ++ t).
Proof.
  intros [Hne Hall] Ht. split.
  - destruct s; [congruence | discriminate].
  - apply Forall_app. now split.
Qed.

Lemma uint_digits_no_sep (d : Decimal.uint) :
  Forall (fun c => c <> sep) (str (NilEmpty.string_of_uint d)).
Proof.
  induction d; cbn; try constructor; try exact IHd; discriminate.
Qed.

Lemma format_02d_no_sep (n : nat) : Forall (fun c => c <> sep) (format_02d n).
Proof.
  unfold format_02d. cbv zeta.
  assert (H : Forall (fun c => c <> sep) (str (NilZero.string_of_uint (Nat.to_uint n)))).
  { unfold NilZero.string_of_uint.
    destruct (Nat.to_uint n) eqn:E; try (rewrite <- E; apply uint_digits_no_sep).
    repeat constructor. discriminate. }
  destruct (n <? 10)%nat; [constructor; [discriminate | exact H] | exact H].
Qed.

Lemma week_component_plain (n : nat) : plain (str "week_" ++ format_02d n).
Proof.
  apply plain_app; [|apply format_02d_no_sep].
  split; [discriminate|]. repeat constructor; discriminate.
Qed.

Section Archive.

Context `{DT : Datetime}.

Lemma get_archive_path_layout (date_str : text) (dt : datetime) :
  strptime date_str = Ok dt ->
  get_archive_path date_str = Ok (archive_dir_of dt).
Proof.
  intro Hdt. unfold get_archive_path. rewrite Hdt. cbn [bind result_Monad].
  f_equal. unfold path_join, archive_dir_of. cbn [fold_left].
  pose proof (strftime_Y_plain dt) as HY.
  pose proof (strftime_m_plain dt) as Hm.
  pose proof (strftime_d_plain dt) as Hd.
  pose proof (week_component_plain (isocalendar_week dt)) as Hw.
  assert (J : forall path b, path <> [] -> endswith_sep path = false -> plain b ->
                join2 path b = path ++ sep :: b).
  { intros path b H1 H2 H3. rewrite <- (app_nil_r b) at 1.
    rewrite (join2_plain path b [] H1 H2 H3). now rewrite app_nil_r. }
  assert (E : forall path b, plain b -> path ++ sep :: b <> []
                                        /\ endswith_sep (path ++ sep :: b) = false).
  { intros path b Hb. split; [destruct path; discriminate|].
    change (path ++ sep :: b) with (path ++ [sep] ++ b).
    rewrite app_assoc. now apply endswith_sep_app_plain. }
  rewrite (J ARCHIVE_ROOT (strftime_Y dt)); [|discriminate|reflexivity|exact HY].
  destruct (E ARCHIVE_ROOT (strftime_Y dt) HY) as [N1 E1].
  rewrite (J _ (strftime_m dt) N1 E1 Hm).
  destruct (E (ARCHIVE_ROOT ++ sep :: strftime_Y dt) (strftime_m dt) Hm) as [N2 E2].
  rewrite (J _ _ N2 E2 Hw).
  destruct (E ((ARCHIVE_ROOT ++ sep :: strftime_Y dt) ++ sep :: strftime_m dt) _ Hw)
    as [N3 E3].
  rewrite (J _ _ N3 E3 Hd).
  rewrite <- !app_assoc. cbn [app]. rewrite <- !app_assoc. reflexivity.
Qed.

(** One call of save_to_archive with a well-formed date. *)
Lemma save_to_archive_run (rows : list RowData) (base_filename date_str : text)
      (header : bool) (dt : datetime) (fs : filesystem) :
  strptime date_str = Ok dt ->
  save_to_archive rows base_filename date_str header fs
  = (Ok (archive_file_of dt base_filename),
     to_csv rows (archive_file_of dt base_filename)
            (path_exists fs (archive_file_of dt base_filename))
            (header && negb (path_exists fs (archive_file_of dt base_filename))) fs).
Proof.
  intro Hdt. unfold save_to_archive.
  rewrite (get_archive_path_layout date_str dt Hdt), Hdt.
  cbn [bind FSM_Monad lift_fs].
  assert (P : path_join (archive_dir_of dt)
                [strftime_d dt ++ str "_" ++ base_filename ++ str ".csv"]
              = archive_file_of dt base_filename).
  { unfold path_join, archive_file_of. cbn [fold_left].
    apply join2_plain; [| |apply strftime_d_plain].
    - unfold archive_dir_of, ARCHIVE_ROOT. discriminate.
    - unfold archive_dir_of.
      assert (Hne : forall (x : ascii) (a b : text), a ++ x :: b <> [])
        by (intros x a b; destruct a; discriminate).
      rewrite (endswith_sep_suffix ARCHIVE_ROOT) by discriminate.
      rewrite endswith_sep_cons by apply Hne.
      rewrite (endswith_sep_suffix (strftime_Y dt)) by discriminate.
      rewrite endswith_sep_cons by apply Hne.
      rewrite (endswith_sep_suffix (strftime_m dt)) by discriminate.
      rewrite endswith_sep_cons by apply Hne.
      rewrite (endswith_sep_suffix (str "week_" ++ format_02d (isocalendar_week dt)))
        by discriminate.
      apply (endswith_sep_app_plain [sep]), strftime_d_plain. }
  rewrite P. reflexivity.
Qed.

End Archive.

Section ArchiveProperties.

Context `{DT : Datetime}.

(** X12.  save_to_archive with a well-formed date writes one file and returns its
    path.  A file that did not exist receives the header line (when a
    header is asked for) and the rows; a file that existed keeps its
    content and receives the rows after it, without a header.  No other
    file changes. *)
Theorem save_to_archive_effect (rows : list RowData) (base_filename date_str : text)
        (header : bool) (dt : datetime) (fs : filesystem) :
  strptime date_str = Ok dt ->
  exists path fs',
    save_to_archive rows base_filename date_str header fs = (Ok path, fs')
    /\ path = archive_file_of dt base_filename
    /\ fs' path
       = Some match fs path with
              | None => (if header then [Header] else []) ++ map Row rows
              | Some old => old ++ map Row rows
              end
    /\ forall p, p <> path -> fs' p = fs p.
Proof.
  intro Hdt. rewrite (save_to_archive_run rows base_filename date_str header dt fs Hdt).
  eexists. eexists. split; [reflexivity|]. split; [reflexivity|].
  unfold to_csv, path_exists. split.
  - rewrite fs_write_same.
    destruct (fs (archive_file_of dt base_filename)) as [old|].
    + rewrite andb_false_r. reflexivity.
    + rewrite andb_true_r. reflexivity.
  - intros p Hp. now apply fs_write_other.
Qed.

(** X13.  A date that [strptime] refuses makes save_to_archive raise the same
    error before anything is written. *)
Theorem save_to_archive_malformed_date (rows : list RowData) (base_filename date_str : text)
        (header : bool) (e : exn) (fs : filesystem) :
  strptime date_str = Raise e ->
  save_to_archive rows base_filename date_str header fs = (Raise e, fs).
Proof.
  intro Hdt. unfold save_to_archive, get_archive_path.
  rewrite Hdt. reflexivity.
Qed.

(** X14.  The file of a save lies in the directory that get_archive_path gives
    for the date and is named DD_<base>.csv; for one date, two base names
    give the same file only if they are equal. *)
Theorem save_to_archive_path (rows1 rows2 : list RowData) (base1 base2 date_str : text)
        (header1 header2 : bool) (dt : datetime) (fs1 fs2 : filesystem) :
  strptime date_str = Ok dt ->
  exists dir path1 path2,
    get_archive_path date_str = Ok dir
    /\ fst (save_to_archive rows1 base1 date_str header1 fs1) = Ok path1
    /\ fst (save_to_archive rows2 base2 date_str header2 fs2) = Ok path2
    /\ path1 = dir ++ sep :: strftime_d dt ++ str "_" ++ base1 ++ str ".csv"
    /\ (path1 = path2 <-> base1 = base2).
Proof.
  intro Hdt.
  exists (archive_dir_of dt), (archive_file_of dt base1), (archive_file_of dt base2).
  rewrite (get_archive_path_layout date_str dt Hdt).
  rewrite !(save_to_archive_run _ _ date_str _ dt _ Hdt). cbn [fst].
  repeat split; try reflexivity.
  - unfold archive_file_of. intro E.
    apply app_inv_head in E. injection E as E.
    apply app_inv_head in E. injection E as E.
    now apply app_inv_tail in E.
  - intros ->. reflexivity.
Qed.

Lemma save_batches_existing (batches : list (list RowData)) (base_filename date_str : text)
      (dt : datetime) (fs : filesystem) (old : list Line) :
  strptime date_str = Ok dt ->
  fs (archive_file_of dt base_filename) = Some old ->
  exists fs',
    save_batches batches base_filename date_str fs = (Ok tt, fs')
    /\ fs' (archive_file_of dt base_filename) = Some (old ++ map Row (concat batches))
    /\ forall p, p <> archive_file_of dt base_filename -> fs' p = fs p.
Proof.
  intro Hdt. revert fs old.
  induction batches as [|rows batches IH]; intros fs old Hold; unfold save_batches.
  - exists fs. cbn. rewrite app_nil_r. auto.
  - cbn [for_each bind FSM_Monad ret].
    rewrite (save_to_archive_run rows base_filename date_str true dt fs Hdt).
    set (fs1 := to_csv _ _ _ _ fs).
    assert (H1 : fs1 (archive_file_of dt base_filename) = Some (old ++ map Row rows)).
    { unfold fs1, to_csv, path_exists. rewrite fs_write_same, Hold. reflexivity. }
    destruct (IH fs1 _ H1) as (fs' & Hrun & Hc & Hother).
    exists fs'. split; [exact Hrun|]. split.
    + rewrite Hc. cbn [concat]. now rewrite map_app, app_assoc.
    + intros p Hp. rewrite (Hother p Hp). unfold fs1, to_csv. now apply fs_write_other.
Qed.

(** X15.  Any number of saves (at least one) into a file that did not exist
    leave it with exactly one header line, the first, followed by the rows
    of all the saves in call order; no other file changes. *)
Theorem save_batches_single_header (batches : list (list RowData))
        (base_filename date_str : text) (dt : datetime) (fs : filesystem) :
  strptime date_str = Ok dt ->
  fs (archive_file_of dt base_filename) = None ->
  batches <> [] ->
  exists fs',
    save_batches batches base_filename date_str fs = (Ok tt, fs')
    /\ fs' (archive_file_of dt base_filename) = Some (Header :: map Row (concat batches))
    /\ forall p, p <> archive_file_of dt base_filename -> fs' p = fs p.
Proof.
  intros Hdt Hnone Hne.
  destruct batches as [|rows batches]; [congruence|].
  unfold save_batches. cbn [for_each bind FSM_Monad ret].
  rewrite (save_to_archive_run rows base_filename date_str true dt fs Hdt).
  set (fs1 := to_csv _ _ _ _ fs).
  assert (H1 : fs1 (archive_file_of dt base_filename) = Some (Header :: map Row rows)).
  { unfold fs1, to_csv, path_exists. rewrite fs_write_same, Hnone. reflexivity. }
  destruct (save_batches_existing batches base_filename date_str dt fs1 _ Hdt H1)
    as (fs' & Hrun & Hc & Hother).
  exists fs'. split; [exact Hrun|]. split.
  - rewrite Hc. cbn [concat app]. now rewrite map_app.
  - intros p Hp. rewrite (Hother p Hp). unfold fs1, to_csv. now apply fs_write_other.
Qed.

End ArchiveProperties.

Lemma save_to_archive_effect_witness :
  exists path fs',
    save_to_archive [LevelRow (resistance, Num 15, 2%Z)] (str "btc_levels_data")
                    (str "2024-01-05 10:00:00") true (fun _ => None)
    = (Ok path, fs')
    /\ path = archive_file_of (H := Datetime_20240105) tt (str "btc_levels_data")
    /\ fs' path
       = Some match (fun _ : text => @None (list Line)) path with
              | None => (if true then [Header] else [])
                          ++ map Row [LevelRow (resistance, Num 15, 2%Z)]
              | Some old => old ++ map Row [LevelRow (resistance, Num 15, 2%Z)]
              end
    /\ forall p, p <> path -> fs' p = None.
Proof.
  apply (save_to_archive_effect [LevelRow (resistance, Num 15, 2%Z)] (str "btc_levels_data")
           (str "2024-01-05 10:00:00") true (tt : @datetime Datetime_20240105) (fun _ => None)).
  reflexivity.
Defined.

Lemma save_to_archive_malformed_date_witness :
  save_to_archive [] (str "btc_levels_data") (str "yesterday") true (fun _ => None)
  = (Raise ValueError, fun _ => None).
Proof.
  apply (save_to_archive_malformed_date [] (str "btc_levels_data") (str "yesterday") true
           ValueError (fun _ => None)).
  reflexivity.
Defined.

Lemma save_to_archive_path_witness :
  exists dir path1 path2,
    get_archive_path (str "2024-01-05 10:00:00") = Ok dir
    /\ fst (save_to_archive [] (str "btc_ohlcv_1h") (str "2024-01-05 10:00:00") true
              (fun _ => None)) = Ok path1
    /\ fst (save_to_archive [] (str "btc_ohlcv_1d") (str "2024-01-05 10:00:00") true
              (fun _ => None)) = Ok path2
    /\ path1 = dir ++ sep :: str "05" ++ str "_" ++ str "btc_ohlcv_1h" ++ str ".csv"
    /\ (path1 = path2 <-> str "btc_ohlcv_1h" = str "btc_ohlcv_1d").
Proof.
  apply (save_to_archive_path [] [] (str "btc_ohlcv_1h") (str "btc_ohlcv_1d")
           (str "2024-01-05 10:00:00") true true (tt : @datetime Datetime_20240105)
           (fun _ => None) (fun _ => None)).
  reflexivity.
Defined.

Lemma save_batches_single_header_witness :
  exists fs',
    save_batches [[LevelRow (resistance, Num 15, 2%Z)]; [LevelRow (support, Num 9, 3%Z)]]
                 (str "btc_levels_data") (str "2024-01-05 10:00:00") (fun _ => None)
    = (Ok tt, fs')
    /\ fs' (archive_file_of (H := Datetime_20240105) tt (str "btc_levels_data"))
       = Some (Header :: map Row (concat [[LevelRow (resistance, Num 15, 2%Z)];
                                          [LevelRow (support, Num 9, 3%Z)]]))
    /\ forall p, p <> archive_file_of (H := Datetime_20240105) tt (str "btc_levels_data") -> fs' p = None.
Proof.
  apply (save_batches_single_header
           [[LevelRow (resistance, Num 15, 2%Z)]; [LevelRow (support, Num 9, 3%Z)]]
           (str "btc_levels_data") (str "2024-01-05 10:00:00")
           (tt : @datetime Datetime_20240105) (fun _ => None)).
  - reflexivity.
  - reflexivity.
  - discriminate.
Defined.

(* ================================================================== *)
(** * How the functions compose *)

Lemma col_length {A : Type} (c : Bar -> A) (d d' : DataFrame) :
  col c d' = col c d -> length d' = length d.
Proof.
  intro E. apply (f_equal (@length A)) in E. unfold col in E.
  now rewrite !length_map in E.
Qed.

Lemma empty_length (d d' : DataFrame) : length d' = length d -> empty d' = empty d.
Proof. destruct d, d'; simpl; intro E; congruence. Qed.

(** determine_trend reads the close columns only, find_key_levels the
    timestamp, high and low columns only. *)
Lemma determine_trend_ext (a a' b b' : DataFrame) :
  col close a' = col close a -> col close b' = col close b ->
  determine_trend a' b' = determine_trend a b.
Proof.
  intros Ea Eb. unfold determine_trend.
  rewrite (empty_length a a' (col_length close a a' Ea)).
  rewrite (empty_length b b' (col_length close b b' Eb)).
  rewrite (col_length close b b' Eb), Ea, Eb. reflexivity.
Qed.

Lemma find_key_levels_ext (d d' : DataFrame) :
  col timestamp d' = col timestamp d -> col high d' = col high d ->
  col low d' = col low d ->
  find_key_levels d' = find_key_levels d.
Proof.
  intros Et Eh El. unfold find_key_levels.
  rewrite (empty_length d d' (col_length high d d' Eh)).
  rewrite (col_length high d d' Eh), Et, Eh, El. reflexivity.
Qed.

(** X16.  The columns that calculate_atr adds change nothing for
    find_key_levels and determine_trend: on the frame it returns they give
    what they give on the frame it was given, and the last close, the price
    that main hands to find_round_levels, is the same. *)
Theorem analysis_unaffected_by_atr_columns (h : heap) (r : ref) (d : DataFrame) (N : nat) :
  nth_error h r = Some d ->
  (0 < N)%nat ->
  exists r' h' d',
    calculate_atr r N h = (Ok r', h')
    /\ nth_error h' r' = Some d'
    /\ find_key_levels d' = find_key_levels d
    /\ (forall other, determine_trend d' other = determine_trend d other
                      /\ determine_trend other d' = determine_trend other d)
    /\ iloc (col close d') (-1) = iloc (col close d) (-1).
Proof.
  intros Hr HN. rewrite (calculate_atr_run h r d N Hr).
  destruct d as [|b0 d0].
  - exists r, h, []. repeat split; auto.
  - cbv iota. remember (b0 :: d0) as d eqn:Ed.
    replace (N =? 0)%nat with false by (symmetry; apply Nat.eqb_neq; lia).
    exists (length h), (h ++ [atr_frame d N]), (atr_frame d N).
    split; [reflexivity|]. split; [apply nth_error_app_last|].
    assert (Ec : col close (atr_frame d N) = col close d) by (now apply col_atr_frame).
    split; [apply find_key_levels_ext; now apply col_atr_frame|].
    split; [|now rewrite Ec].
    intro other. split; now apply determine_trend_ext.
Qed.

Lemma analysis_unaffected_by_atr_columns_witness :
  exists r' h' d',
    calculate_atr 0%nat ATR_PERIOD
      [[candle 1 10 12 9 11 1; candle 2 11 15 10 14 1; candle 3 14 14 8 9 1]]
    = (Ok r', h')
    /\ nth_error h' r' = Some d'
    /\ find_key_levels d'
       = find_key_levels [candle 1 10 12 9 11 1; candle 2 11 15 10 14 1; candle 3 14 14 8 9 1]
    /\ (forall other,
          determine_trend d' other
          = determine_trend
              [candle 1 10 12 9 11 1; candle 2 11 15 10 14 1; candle 3 14 14 8 9 1] other
          /\ determine_trend other d'
             = determine_trend other
                 [candle 1 10 12 9 11 1; candle 2 11 15 10 14 1; candle 3 14 14 8 9 1])
    /\ iloc (col close d') (-1)
       = iloc (col close [candle 1 10 12 9 11 1; candle 2 11 15 10 14 1; candle 3 14 14 8 9 1])
              (-1).
Proof.
  apply (analysis_unaffected_by_atr_columns
           [[candle 1 10 12 9 11 1; candle 2 11 15 10 14 1; candle 3 14 14 8 9 1]]
           0%nat
           [candle 1 10 12 9 11 1; candle 2 11 15 10 14 1; candle 3 14 14 8 9 1]
           ATR_PERIOD).
  - reflexivity.
  - unfold ATR_PERIOD. lia.
Defined.

(** X17.  The signals found against the key levels of the same series, as main
    computes them: no call raises, and every signal carries the timestamp
    of the last bar and, as level price, the high (the low for a bounce) of
    a bar that is neither the first nor the last; a breakout is always on
    such a high. *)
Theorem patterns_on_own_key_levels (rest : DataFrame) (prev_bar last_bar : Bar) :
  let df := rest ++ [prev_bar; last_bar] in
  exists levels signals,
    find_key_levels df = Ok levels
    /\ check_patterns df levels = Ok signals
    /\ forall pattern price t, In (pattern, price, t) signals ->
         t = timestamp last_bar
         /\ exists i b,
              (1 <= i <= length df - 2)%nat
              /\ nth_error df i = Some b
              /\ (price = high b \/ price = low b)
              /\ (pattern = breakout -> price = high b)
              /\ (pattern = bounce -> price = low b).
Proof.
  cbv zeta.
  set (df := rest ++ [prev_bar; last_bar]).
  exists (flat_map (levels_at df) (seq 1 (length df - 2))).
  eexists. split; [apply find_key_levels_unfold|].
  split; [apply check_patterns_last_two|].
  intros pattern price t Hin.
  rewrite fold_check_level in Hin. cbn [app] in Hin.
  apply in_flat_map in Hin. destruct Hin as ([[kind lp] lt] & Hlev & Hin).
  destruct (check_level_cases prev_bar last_bar kind lp lt) as [Hcases _].
  cbv zeta in Hcases.
  assert (Horigin : exists i b,
             (1 <= i <= length df - 2)%nat /\ nth_error df i = Some b
             /\ (kind = resistance /\ lp = high b \/ kind = support /\ lp = low b)).
  { apply in_flat_map in Hlev. destruct Hlev as (i & Hi & Hlev).
    apply in_seq in Hi. unfold levels_at in Hlev.
    destruct (nth_error df i) as [b|] eqn:Eb; [|now simpl in Hlev].
    destruct (nth_error (rolling_max _) i); [|now simpl in Hlev].
    destruct (nth_error (rolling_min _) i); [|now simpl in Hlev].
    exists i, b. split; [lia|]. split; [exact Eb|].
    apply in_app_or in Hlev. destruct Hlev as [Hlev | Hlev].
    - destruct (feq (high b) _); [|now simpl in Hlev].
      destruct Hlev as [[= <- <- <-] | []]. now left.
    - destruct (feq (low b) _); [|now simpl in Hlev].
      destruct Hlev as [[= <- <- <-] | []]. now right. }
  destruct Horigin as (i & b & Hi & Hb & Hkind).
  assert (Hsig : t = timestamp last_bar /\ price = lp
                 /\ (pattern = breakout -> kind = resistance)
                 /\ (pattern = bounce -> kind = support)).
  { destruct Hcases as [E | [E | [[E Hk] | [[E Hk] | [E Hk]]]]]; rewrite E in Hin;
      cbn in Hin;
      repeat (destruct Hin as [[= <- <- <-] | Hin]); try contradiction;
      repeat split; auto; discriminate. }
  destruct Hsig as (-> & -> & Hbo & Hbn).
  split; [reflexivity|].
  exists i, b. split; [exact Hi|]. split; [exact Hb|].
  split; [destruct Hkind as [[_ ->] | [_ ->]]; auto|].
  split.
  - intro Hp. specialize (Hbo Hp). destruct Hkind as [[_ E] | [Hk _]]; [exact E | congruence].
  - intro Hp. specialize (Hbn Hp). destruct Hkind as [[Hk _] | [_ E]]; [congruence | exact E].
Qed.

(* ================================================================== *)
(** * main *)

(** The analysis functions raise nothing. *)
Lemma determine_trend_ok (df_1h df_1d : DataFrame) :
  exists trends, determine_trend df_1h df_1d = Ok trends.
Proof.
  destruct df_1h as [|x xs]; [eexists; reflexivity|].
  destruct (Nat.lt_ge_cases (length df_1d) 6) as [Hlt | Hge].
  - destruct (determine_trend_global_none (x :: xs) df_1d) as [lt Hrun];
      [discriminate | exact Hlt | eauto].
  - destruct (nth_error (col close df_1d) (length df_1d - 1)) as [a|] eqn:Ea;
      [|apply nth_error_None in Ea; unfold col in Ea; rewrite length_map in Ea; lia].
    destruct (nth_error (col close df_1d) (length df_1d - 5)) as [b|] eqn:Eb;
      [|apply nth_error_None in Eb; unfold col in Eb; rewrite length_map in Eb; lia].
    destruct (determine_trend_global_code (x :: xs) df_1d a b) as [lt Hrun];
      [discriminate | exact Hge | exact Ea | exact Eb | eauto].
Qed.

Lemma check_patterns_ok (df : DataFrame) (levels : list KeyLevel) :
  exists signals, check_patterns df levels = Ok signals.
Proof.
  destruct (list_last_two_cases df) as [Hshort | (rest & p & q & ->)].
  - eexists. now apply check_patterns_short.
  - eexists. apply check_patterns_last_two.
Qed.

Lemma find_round_levels_ok (price : float) :
  exists round_level, find_round_levels (Some price) ROUND_LEVELS = Ok round_level.
Proof.
  destruct price as [|p]; [eexists; reflexivity|].
  unfold ROUND_LEVELS.
  rewrite (find_round_levels_cons p 1000) by discriminate.
  destruct (Qltb _ (inject_Z 1000 * _)); [eauto|].
  rewrite (find_round_levels_cons p 500) by discriminate.
  destruct (Qltb _ (inject_Z 500 * _)); [eauto|].
  rewrite (find_round_levels_cons p 100) by discriminate.
  destruct (Qltb _ (inject_Z 100 * _)); [eauto | eexists; reflexivity].
Qed.

Lemma get_reserve_move_ok (df_1h df_1d : DataFrame) (atr : option float) :
  exists status, get_reserve_move df_1h df_1d atr = Ok status.
Proof.
  destruct (list_last_cases df_1h) as [-> | (h1 & b1 & ->)]; [eexists; reflexivity|].
  destruct (list_last_cases df_1d) as [-> | (d1 & b2 & ->)].
  { exists NoData. unfold get_reserve_move. cbn [empty]. now rewrite orb_true_r. }
  destruct atr as [[|t]|].
  - exists NoData. unfold get_reserve_move. cbn [isnan]. now rewrite orb_true_r.
  - eexists. apply get_reserve_move_defined.
  - exists NoData. unfold get_reserve_move. now rewrite orb_true_r.
Qed.

Lemma last_atr_or_nan_ok (d : DataFrame) (N : nat) :
  d <> [] -> exists a, last_atr_or_nan (atr_frame d N) = Ok a.
Proof.
  intro Hne. unfold last_atr_or_nan. rewrite col_derived_atr.
  destruct (exists_last (l := rolling_mean (mkRolling (true_ranges d) N 1))) as (s & a & ->).
  - intro E. apply (f_equal (@length float)) in E.
    rewrite length_rolling_mean_true_ranges in E. destruct d; [congruence | discriminate].
  - exists a. apply iloc_last.
Qed.

Lemma in_heap_load (h : heap) (fs : filesystem) (lg : list LogRecord) (r : ref)
      (d : DataFrame) :
  nth_error h r = Some d ->
  in_heap (load r) (mkWorld h fs lg) = (Ok d, mkWorld h fs lg).
Proof. intro H. unfold in_heap. cbn [w_heap w_fs w_log]. now rewrite (load_run H). Qed.

Lemma in_heap_calculate_atr (h : heap) (fs : filesystem) (lg : list LogRecord) (r : ref)
      (d : DataFrame) :
  nth_error h r = Some d -> d <> [] ->
  in_heap (calculate_atr r ATR_PERIOD) (mkWorld h fs lg)
  = (Ok (length h), mkWorld (h ++ [atr_frame d ATR_PERIOD]) fs lg).
Proof.
  intros H Hne. unfold in_heap. cbn [w_heap w_fs w_log].
  rewrite (calculate_atr_run h r d ATR_PERIOD H).
  destruct d; [congruence | reflexivity].
Qed.

(** Saving with a header asked for, as a function of the files. *)
Lemma to_csv_saved (fs : filesystem) (path : text) (rows : list RowData) :
  to_csv rows path (path_exists fs path) (true && negb (path_exists fs path)) fs path
  = Some (saved fs path rows).
Proof.
  unfold to_csv, saved, path_exists. rewrite fs_write_same.
  destruct (fs path); reflexivity.
Qed.

Lemma to_csv_other (fs : filesystem) (path p : text) (rows : list RowData) (a hd : bool) :
  p <> path -> to_csv rows path a hd fs p = fs p.
Proof. intro H. unfold to_csv. now apply fs_write_other. Qed.



Section Main.

Context `{DT : Datetime} `{CO : Collaborators}.

Lemma in_fs_save (h : heap) (fs : filesystem) (lg : list LogRecord)
      (rows : list RowData) (base : text) (dt : datetime) :
  strptime now_date_str = Ok dt ->
  in_fs (save_to_archive rows base now_date_str true) (mkWorld h fs lg)
  = (Ok (archive_file_of dt base),
     mkWorld h (to_csv rows (archive_file_of dt base)
                       (path_exists fs (archive_file_of dt base))
                       (true && negb (path_exists fs (archive_file_of dt base))) fs) lg).
Proof.
  intro Hdt. unfold in_fs. cbn [w_heap w_fs w_log].
  now rewrite (save_to_archive_run rows base now_date_str true dt fs Hdt).
Qed.




(** A complete run, step by step. *)
Lemma main_body_success (w : World) (d1 d2 : DataFrame) (dt : datetime) :
  fetch_ohlcv SYMBOL_FUTURES TIMEFRAME_1h = Ok d1 ->
  fetch_ohlcv SYMBOL_FUTURES TIMEFRAME_1d = Ok d2 ->
  d1 <> [] -> d2 <> [] ->
  strptime now_date_str = Ok dt ->
  let a1 := atr_frame d1 ATR_PERIOD in
  let a2 := atr_frame d2 ATR_PERIOD in
  exists trends key_levels price round_level patterns atr_daily reserve_status,
    determine_trend a1 a2 = Ok trends
    /\ find_key_levels a1 = Ok key_levels
    /\ iloc (col close a1) (-1) = Ok price
    /\ find_round_levels (Some price) ROUND_LEVELS = Ok round_level
    /\ check_patterns a1 key_levels = Ok patterns
    /\ last_atr_or_nan a2 = Ok atr_daily
    /\ get_reserve_move a1 a2 (Some atr_daily) = Ok reserve_status
    /\ main_body w
       = (Ok tt,
          mkWorld
            ((((w_heap w ++ [d1]) ++ [d2]) ++ [a1]) ++ [a2])
            (let save := fun base rows fs =>
               to_csv rows (archive_file_of dt base)
                      (path_exists fs (archive_file_of dt base))
                      (true && negb (path_exists fs (archive_file_of dt base))) fs in
             let fs1 := match key_levels with
                        | [] => w_fs w
                        | _ :: _ => save BASE_FILE_levels (map LevelRow key_levels) (w_fs w)
                        end in
             let fs2 := match patterns with
                        | [] => fs1
                        | _ :: _ => save BASE_FILE_patterns (map SignalRow patterns) fs1
                        end in
             save BASE_FILE_ohlcv_1d (map BarRow a2)
                  (save BASE_FILE_ohlcv_1h (map BarRow a1) fs2))
            (w_log w ++ [InfoStart now_date_str;
                         InfoTrends (fst trends) (snd trends);
                         InfoKeyLevels match key_levels with
                                       | [] => None
                                       | _ :: _ => Some (last_five key_levels)
                                       end;
                         InfoRoundLevel round_level;
                         InfoPatterns patterns;
                         InfoReserve reserve_status])).
Proof.
  intros H1 H2 Hne1 Hne2 Hdt a1 a2.
  destruct (determine_trend_ok a1 a2) as [trends Htr].
  destruct (find_key_levels a1) as [key_levels|] eqn:Hkl;
    [|rewrite find_key_levels_unfold in Hkl; discriminate].
  assert (Hna1 : a1 <> []).
  { intro E. apply (f_equal (@length Bar)) in E. unfold a1 in E.
    rewrite length_atr_frame in E. destruct d1; [congruence | discriminate]. }
  destruct (exists_last (l := col close a1)) as (cs & price & Hcs).
  { unfold col. destruct a1; [congruence | discriminate]. }
  assert (Hprice : iloc (col close a1) (-1) = Ok price) by (rewrite Hcs; apply iloc_last).
  destruct (find_round_levels_ok price) as [round_level Hrl].
  destruct (check_patterns_ok a1 key_levels) as [patterns Hpat].
  destruct (last_atr_or_nan_ok d2 ATR_PERIOD Hne2) as [atr_daily Hatr].
  fold a2 in Hatr.
  destruct (get_reserve_move_ok a1 a2 (Some atr_daily)) as [reserve_status Hres].
  exists trends, key_levels, price, round_level, patterns, atr_daily, reserve_status.
  repeat (split; [solve [assumption | reflexivity]|]).
  destruct w as [h fs lg]. unfold main_body. cbv zeta.
  cbn [bind W_Monad logging pure w_heap w_fs w_log]. rewrite H1.
  cbn [in_heap alloc w_heap w_fs w_log]. rewrite H2.
  cbn [in_heap alloc w_heap w_fs w_log].
  assert (L1 : nth_error ((h ++ [d1]) ++ [d2]) (length h) = Some d1)
    by (rewrite nth_error_app1 by (rewrite length_app; simpl; lia);
        apply nth_error_app_last).
  assert (L2 : nth_error ((h ++ [d1]) ++ [d2]) (length (h ++ [d1])) = Some d2)
    by apply nth_error_app_last.
  rewrite (in_heap_load _ _ _ _ _ L1). cbv beta iota.
  rewrite (in_heap_load _ _ _ _ _ L2). cbv beta iota.
  replace (empty d1 || empty d2) with false
    by (destruct d1, d2; try congruence; reflexivity).
  rewrite (in_heap_calculate_atr _ _ _ _ _ L1 Hne1). cbv beta iota.
  assert (L2' : nth_error (((h ++ [d1]) ++ [d2]) ++ [atr_frame d1 ATR_PERIOD])
                          (length (h ++ [d1])) = Some d2).
  { rewrite nth_error_app1; [exact L2|]. rewrite !length_app. simpl. lia. }
  rewrite (in_heap_calculate_atr _ _ _ _ _ L2' Hne2). cbv beta iota.
  fold a1 a2.
  assert (L3 : nth_error ((((h ++ [d1]) ++ [d2]) ++ [a1]) ++ [a2])
                         (length ((h ++ [d1]) ++ [d2])) = Some a1).
  { rewrite nth_error_app1 by (rewrite !length_app; simpl; lia).
    apply nth_error_app_last. }
  assert (L4 : nth_error ((((h ++ [d1]) ++ [d2]) ++ [a1]) ++ [a2])
                         (length (((h ++ [d1]) ++ [d2]) ++ [a1])) = Some a2)
    by apply nth_error_app_last.
  rewrite (in_heap_load _ _ _ _ _ L3). cbv beta iota.
  rewrite (in_heap_load _ _ _ _ _ L4). cbv beta iota.
  rewrite Htr, Hkl, Hprice, Hrl, Hpat, Hatr, Hres.
  destruct key_levels as [|kl0 kls], patterns as [|p0 ps];
    cbn [ret W_Monad bind];
    rewrite ?(in_fs_save _ _ _ _ _ dt Hdt); cbv beta iota;
    rewrite ?(in_fs_save _ _ _ _ _ dt Hdt); cbv beta iota;
    rewrite ?(in_fs_save _ _ _ _ _ dt Hdt); cbv beta iota;
    rewrite ?(in_fs_save _ _ _ _ _ dt Hdt); cbv beta iota;
    unfold logging; cbn [w_heap w_fs w_log]; do 2 f_equal; now rewrite <- !app_assoc.
Qed.

Lemma archive_file_of_inj (dt : datetime) (base1 base2 : text) :
  archive_file_of dt base1 = archive_file_of dt base2 -> base1 = base2.
Proof.
  unfold archive_file_of. intro E.
  apply app_inv_head in E. injection E as E.
  apply app_inv_head in E. injection E as E.
  now apply app_inv_tail in E.
Qed.

Lemma saved_ext (fs fs' : filesystem) (path : text) (rows : list RowData) :
  fs' path = fs path -> saved fs' path rows = saved fs path rows.
Proof. intro E. unfold saved. now rewrite E. Qed.

(** The world after a complete run. *)
Lemma main_success (w : World) (d1 d2 : DataFrame) (dt : datetime) :
  fetch_ohlcv SYMBOL_FUTURES TIMEFRAME_1h = Ok d1 ->
  fetch_ohlcv SYMBOL_FUTURES TIMEFRAME_1d = Ok d2 ->
  d1 <> [] -> d2 <> [] ->
  strptime now_date_str = Ok dt ->
  let a1 := atr_frame d1 ATR_PERIOD in
  let a2 := atr_frame d2 ATR_PERIOD in
  exists trends key_levels price round_level patterns atr_daily reserve_status,
    determine_trend a1 a2 = Ok trends
    /\ find_key_levels a1 = Ok key_levels
    /\ iloc (col close a1) (-1) = Ok price
    /\ find_round_levels (Some price) ROUND_LEVELS = Ok round_level
    /\ check_patterns a1 key_levels = Ok patterns
    /\ last_atr_or_nan a2 = Ok atr_daily
    /\ get_reserve_move a1 a2 (Some atr_daily) = Ok reserve_status
    /\ w_heap (main w) = (((w_heap w ++ [d1]) ++ [d2]) ++ [a1]) ++ [a2]
    /\ w_log (main w)
       = w_log w ++ [InfoStart now_date_str;
                     InfoTrends (fst trends) (snd trends);
                     InfoKeyLevels match key_levels with
                                   | [] => None
                                   | _ :: _ => Some (last_five key_levels)
                                   end;
                     InfoRoundLevel round_level;
                     InfoPatterns patterns;
                     InfoReserve reserve_status]
    /\ w_fs (main w) (archive_file_of dt BASE_FILE_ohlcv_1h)
       = Some (saved (w_fs w) (archive_file_of dt BASE_FILE_ohlcv_1h) (map BarRow a1))
    /\ w_fs (main w) (archive_file_of dt BASE_FILE_ohlcv_1d)
       = Some (saved (w_fs w) (archive_file_of dt BASE_FILE_ohlcv_1d) (map BarRow a2))
    /\ w_fs (main w) (archive_file_of dt BASE_FILE_levels)
       = match key_levels with
         | [] => w_fs w (archive_file_of dt BASE_FILE_levels)
         | _ :: _ => Some (saved (w_fs w) (archive_file_of dt BASE_FILE_levels)
                                 (map LevelRow key_levels))
         end
    /\ w_fs (main w) (archive_file_of dt BASE_FILE_patterns)
       = match patterns with
         | [] => w_fs w (archive_file_of dt BASE_FILE_patterns)
         | _ :: _ => Some (saved (w_fs w) (archive_file_of dt BASE_FILE_patterns)
                                 (map SignalRow patterns))
         end
    /\ forall p,
         p <> archive_file_of dt BASE_FILE_ohlcv_1h ->
         p <> archive_file_of dt BASE_FILE_ohlcv_1d ->
         p <> archive_file_of dt BASE_FILE_levels ->
         p <> archive_file_of dt BASE_FILE_patterns ->
         w_fs (main w) p = w_fs w p.
Proof.
  intros H1 H2 Hne1 Hne2 Hdt a1 a2.
  destruct (main_body_success w d1 d2 dt H1 H2 Hne1 Hne2 Hdt)
    as (trends & key_levels & price & round_level & patterns & atr_daily & reserve_status
        & Htr & Hkl & Hprice & Hrl & Hpat & Hatr & Hres & Hrun).
  fold a1 a2 in Htr, Hkl, Hprice, Hrl, Hpat, Hatr, Hres, Hrun.
  exists trends, key_levels, price, round_level, patterns, atr_daily, reserve_status.
  repeat (split; [assumption|]).
  unfold main. rewrite Hrun. cbn [w_heap w_log w_fs]. cbv zeta.
  split; [reflexivity|]. split; [reflexivity|].
  assert (D : forall b1 b2, b1 <> b2 -> archive_file_of dt b1 <> archive_file_of dt b2).
  { intros b1 b2 Hb E. apply Hb. now apply (archive_file_of_inj dt). }
  assert (D1 : archive_file_of dt BASE_FILE_ohlcv_1h <> archive_file_of dt BASE_FILE_ohlcv_1d)
    by (apply D; discriminate).
  assert (D2 : archive_file_of dt BASE_FILE_ohlcv_1h <> archive_file_of dt BASE_FILE_levels)
    by (apply D; discriminate).
  assert (D3 : archive_file_of dt BASE_FILE_ohlcv_1h <> archive_file_of dt BASE_FILE_patterns)
    by (apply D; discriminate).
  assert (D4 : archive_file_of dt BASE_FILE_ohlcv_1d <> archive_file_of dt BASE_FILE_levels)
    by (apply D; discriminate).
  assert (D5 : archive_file_of dt BASE_FILE_ohlcv_1d <> archive_file_of dt BASE_FILE_patterns)
    by (apply D; discriminate).
  assert (D6 : archive_file_of dt BASE_FILE_levels <> archive_file_of dt BASE_FILE_patterns)
    by (apply D; discriminate).
  destruct key_levels as [|kl0 kls], patterns as [|p0 ps];
    repeat split;
    try (intros p P1 P2 P3 P4);
    repeat first
      [ rewrite to_csv_saved
      | rewrite to_csv_other by congruence ];
    try reflexivity;
    f_equal; apply saved_ext;
    repeat (rewrite to_csv_other by congruence); reflexivity.
Qed.



(** X20.  The files of a complete run.  The two OHLCV files receive the rows of
    the series with their ATR columns; the levels file and the patterns
    file are written only when there is a key level, respectively a
    pattern.  A file that did not exist starts with the header line, an
    existing one is extended; no other file changes. *)
Theorem main_files (w : World) (d1 d2 : DataFrame) (dt : datetime) :
  fetch_ohlcv SYMBOL_FUTURES TIMEFRAME_1h = Ok d1 ->
  fetch_ohlcv SYMBOL_FUTURES TIMEFRAME_1d = Ok d2 ->
  d1 <> [] -> d2 <> [] ->
  strptime now_date_str = Ok dt ->
  let a1 := atr_frame d1 ATR_PERIOD in
  let a2 := atr_frame d2 ATR_PERIOD in
  exists key_levels patterns,
    find_key_levels d1 = Ok key_levels
    /\ check_patterns a1 key_levels = Ok patterns
    /\ w_fs (main w) (archive_file_of dt BASE_FILE_ohlcv_1h)
       = Some (saved (w_fs w) (archive_file_of dt BASE_FILE_ohlcv_1h) (map BarRow a1))
    /\ w_fs (main w) (archive_file_of dt BASE_FILE_ohlcv_1d)
       = Some (saved (w_fs w) (archive_file_of dt BASE_FILE_ohlcv_1d) (map BarRow a2))
    /\ w_fs (main w) (archive_file_of dt BASE_FILE_levels)
       = match key_levels with
         | [] => w_fs w (archive_file_of dt BASE_FILE_levels)
         | _ :: _ => Some (saved (w_fs w) (archive_file_of dt BASE_FILE_levels)
                                 (map LevelRow key_levels))
         end
    /\ w_fs (main w) (archive_file_of dt BASE_FILE_patterns)
       = match patterns with
         | [] => w_fs w (archive_file_of dt BASE_FILE_patterns)
         | _ :: _ => Some (saved (w_fs w) (archive_file_of dt BASE_FILE_patterns)
                                 (map SignalRow patterns))
         end
    /\ forall p,
         p <> archive_file_of dt BASE_FILE_ohlcv_1h ->
         p <> archive_file_of dt BASE_FILE_ohlcv_1d ->
         p <> archive_file_of dt BASE_FILE_levels ->
         p <> archive_file_of dt BASE_FILE_patterns ->
         w_fs (main w) p = w_fs w p.
Proof.
  intros H1 H2 Hne1 Hne2 Hdt a1 a2.
  destruct (main_success w d1 d2 dt H1 H2 Hne1 Hne2 Hdt)
    as (trends & key_levels & price & round_level & patterns & atr_daily & reserve_status
        & _ & Hkl & _ & _ & Hpat & _ & _ & _ & _ & F1 & F2 & F3 & F4 & F5).
  exists key_levels, patterns.
  split.
  { rewrite <- Hkl. symmetry. apply find_key_levels_ext; now apply col_atr_frame. }
  repeat (split; [assumption|]). exact F5.
Qed.

(** X21.  main does not look at what the archive already holds: a second run
    with the same date and the same fetched series appends the same rows
    again.  Starting without the hourly file, it then holds the header and
    the hourly rows twice. *)
Theorem main_twice_appends_again (w : World) (d1 d2 : DataFrame) (dt : datetime) :
  fetch_ohlcv SYMBOL_FUTURES TIMEFRAME_1h = Ok d1 ->
  fetch_ohlcv SYMBOL_FUTURES TIMEFRAME_1d = Ok d2 ->
  d1 <> [] -> d2 <> [] ->
  strptime now_date_str = Ok dt ->
  w_fs w (archive_file_of dt BASE_FILE_ohlcv_1h) = None ->
  let rows := map Row (map BarRow (atr_frame d1 ATR_PERIOD)) in
  w_fs (main (main w)) (archive_file_of dt BASE_FILE_ohlcv_1h)
  = Some (Header :: rows ++ rows).
Proof.
  intros H1 H2 Hne1 Hne2 Hdt Hnone rows.
  destruct (main_success w d1 d2 dt H1 H2 Hne1 Hne2 Hdt)
    as (? & ? & ? & ? & ? & ? & ? & _ & _ & _ & _ & _ & _ & _ & _ & _ & F1 & _).
  destruct (main_success (main w) d1 d2 dt H1 H2 Hne1 Hne2 Hdt)
    as (? & ? & ? & ? & ? & ? & ? & _ & _ & _ & _ & _ & _ & _ & _ & _ & G1 & _).
  cbv zeta in F1, G1. rewrite G1. unfold saved at 1. rewrite F1.
  unfold saved. rewrite Hnone. reflexivity.
Qed.


End Main.



Lemma main_files_witness :
  let a1 := atr_frame example_hourly ATR_PERIOD in
  let a2 := atr_frame example_daily ATR_PERIOD in
  let file := @archive_file_of Datetime_20240105 tt in
  let w' := @main Datetime_20240105 Collaborators_example World_empty in
  exists key_levels patterns,
    find_key_levels example_hourly = Ok key_levels
    /\ check_patterns a1 key_levels = Ok patterns
    /\ w_fs w' (file BASE_FILE_ohlcv_1h)
       = Some (saved (w_fs World_empty) (file BASE_FILE_ohlcv_1h) (map BarRow a1))
    /\ w_fs w' (file BASE_FILE_ohlcv_1d)
       = Some (saved (w_fs World_empty) (file BASE_FILE_ohlcv_1d) (map BarRow a2))
    /\ w_fs w' (file BASE_FILE_levels)
       = match key_levels with
         | [] => w_fs World_empty (file BASE_FILE_levels)
         | _ :: _ => Some (saved (w_fs World_empty) (file BASE_FILE_levels)
                                 (map LevelRow key_levels))
         end
    /\ w_fs w' (file BASE_FILE_patterns)
       = match patterns with
         | [] => w_fs World_empty (file BASE_FILE_patterns)
         | _ :: _ => Some (saved (w_fs World_empty) (file BASE_FILE_patterns)
                                 (map SignalRow patterns))
         end
    /\ forall p,
         p <> file BASE_FILE_ohlcv_1h ->
         p <> file BASE_FILE_ohlcv_1d ->
         p <> file BASE_FILE_levels ->
         p <> file BASE_FILE_patterns ->
         w_fs w' p = w_fs World_empty p.
Proof.
  apply (@main_files Datetime_20240105 Collaborators_example World_empty
           example_hourly example_daily tt);
    try reflexivity; discriminate.
Defined.

Lemma main_twice_appends_again_witness :
  let rows := map Row (map BarRow (atr_frame example_hourly ATR_PERIOD)) in
  w_fs (@main Datetime_20240105 Collaborators_example
              (@main Datetime_20240105 Collaborators_example World_empty))
       (@archive_file_of Datetime_20240105 tt BASE_FILE_ohlcv_1h)
  = Some (Header :: rows ++ rows).
Proof.
  apply (@main_twice_appends_again Datetime_20240105 Collaborators_example World_empty
           example_hourly example_daily tt);
    try reflexivity; discriminate.
Defined.

